(** * A shallow embedding of the to-do list application (src/app.py)

    The application is a Flask front end over two SQLite tables, [tasks] and
    [events].  Every write handler mutates one task row and appends one row to
    the event log; [undo_last] inverts the most recent event and removes it.

    Modelling choices, all read off the source:
    - a table is a finite map from its integer primary key to the remaining
      columns, so the uniqueness of [id] is built in;
    - [AUTOINCREMENT] is the SQLite rule: the next key is one more than the
      larger of the table's largest key and the counter kept for that table;
    - the [INTEGER] flags [done] and [deleted] are integers, compared against
      the literals 0 and 1 exactly where the source does;
    - text is a string of 8-bit characters, ordered character by character,
      which is both Python's [<] on [str] and SQLite's default collation;
    - [now_iso()] reads the clock, so each handler receives the timestamp [ts]
      it would read as an argument;
    - a handler is a function from the database to the database after the
      request and the response;  an exception that leaves the [with] block
      rolls the transaction back, so the database is returned as it was.

    SQLite stores 64-bit integers, so the keys and integer columns of a table
    fit 64 bits; an integer that comes from a URL or from a parsed payload
    need not, and binding one that does not raises [OverflowError]
    ([sqlite_int]).  The [payload_json] column is taken to hold a JSON object
    whose values are null, integers or strings (what [log_event]
    serialises). *)

From Stdlib Require Import ZArith Ascii.
From stdpp Require Import gmap strings list fin_maps sorting pretty.

Local Open Scope Z_scope.

(** ** Python built-ins used by the handlers *)

Module Py.

(** [str.isspace] on one character below 256: TAB, LF, VT, FF, CR, the four
    separators FS GS RS US, SPACE, NEL and NBSP. *)
Definition isspace (c : ascii) : bool :=
  let n := N_of_ascii c in
  ((9 <=? n) && (n <=? 13) || (28 <=? n) && (n <=? 32)
   || (n =? 133) || (n =? 160))%N.

Fixpoint lstrip (s : string) : string :=
  match s with
  | EmptyString => EmptyString
  | String c s' => if isspace c then lstrip s' else s
  end.

Definition rstrip (s : string) : string :=
  String.rev (lstrip (String.rev s)).

(** [s.strip()] *)
Definition strip (s : string) : string := rstrip (lstrip s).

(** [x or ""] for [x] a string or [None] *)
Definition or_empty (x : option string) : string := default "" x.

(** [s or None] *)
Definition or_none (s : string) : option string :=
  if String.eqb s "" then None else Some s.

(** truth value of a string or [None], as in [t.get("due_date")] *)
Definition truthy (x : option string) : bool :=
  match x with
  | None => false
  | Some s => negb (String.eqb s "")
  end.

End Py.

(** ** Rows *)

(** A row of [tasks] without its key. *)
Record task := Task {
  title : string;
  due_date : option string;
  done : Z;
  deleted : Z;
  created_at : string;
  updated_at : string
}.

(** The JSON values found in a payload. *)
Inductive jval :=
| JNull
| JInt (n : Z)
| JStr (s : string).

(** A row of [events] without its key; [payload] is [json.loads] of the
    [payload_json] column. *)
Record event := Event {
  action : string;
  task_id : option Z;
  payload : gmap string jval;
  ev_created_at : string
}.

(** The database file: both tables and their [sqlite_sequence] counters. *)
Record DB := MkDB {
  tasks : gmap Z task;
  events : gmap Z event;
  tasks_seq : Z;
  events_seq : Z
}.

Definition empty_db : DB := MkDB ∅ ∅ 0 0.

Definition set_tasks (f : gmap Z task → gmap Z task) (db : DB) : DB :=
  MkDB (f (tasks db)) (events db) (tasks_seq db) (events_seq db).

Definition set_events (f : gmap Z event → gmap Z event) (db : DB) : DB :=
  MkDB (tasks db) (f (events db)) (tasks_seq db) (events_seq db).

(** ** SQL primitives *)

(** Largest key of a table, 0 when there is none above it. *)
Definition max_rowid {A} (m : gmap Z A) : Z :=
  map_fold (λ k _ acc, Z.max k acc) 0 m.

(** The key an [AUTOINCREMENT] column gives to the next inserted row. *)
Definition next_rowid {A} (seq : Z) (m : gmap Z A) : Z :=
  Z.max seq (max_rowid m) + 1.

(** [SELECT * FROM events ORDER BY id DESC LIMIT 1] *)
Definition last_event (m : gmap Z event) : option (Z * event) :=
  map_fold (λ k v acc,
    match acc with
    | None => Some (k, v)
    | Some (k', _) => if k' <? k then Some (k, v) else acc
    end) None m.

(** [UPDATE tasks SET ... WHERE id=?]: the assignment [f] applied to the row
    with that key, nothing when the key is [NULL] or matches no row. *)
Definition update_where_id (tid : option Z) (f : task → task)
    (m : gmap Z task) : gmap Z task :=
  match tid with
  | Some i => alter f i m
  | None => m
  end.

(** [DELETE FROM tasks WHERE id=?] *)
Definition delete_where_id {A} (tid : option Z) (m : gmap Z A) : gmap Z A :=
  match tid with
  | Some i => delete i m
  | None => m
  end.

(** Column assignments of the [UPDATE] statements. *)
Definition set_done (d : Z) (ts : string) (t : task) : task :=
  Task (title t) (due_date t) d (deleted t) (created_at t) ts.

Definition set_deleted (d : Z) (ts : string) (t : task) : task :=
  Task (title t) (due_date t) (done t) d (created_at t) ts.

Definition set_title_due (ti : string) (du : option string) (ts : string)
    (t : task) : task :=
  Task ti du (done t) (deleted t) (created_at t) ts.

(** A Python value serialised into a payload. *)
Definition jstr_opt (x : option string) : jval :=
  match x with
  | Some s => JStr s
  | None => JNull
  end.

(** [log_event]: one [INSERT] into [events]. *)
Definition log_event (act : string) (tid : option Z)
    (pl : gmap string jval) (ts : string) (db : DB) : DB :=
  let eid := next_rowid (events_seq db) (events db) in
  MkDB (tasks db) (<[eid := Event act tid pl ts]> (events db))
       (tasks_seq db) eid.

(** Whether an integer fits SQLite's signed 64-bit [INTEGER].  Binding a
    Python integer that does not raises [OverflowError] before the statement
    runs. *)
Definition sqlite_int (z : Z) : bool := (- 2 ^ 63 <=? z) && (z <? 2 ^ 63).

(** ** Responses *)

(** Flash categories. *)
Inductive category := flash_error | flash_info | flash_success.

(** Flash messages, named after the source's texts. *)
Inductive message :=
| TitleEmpty          (* Task title can't be empty. *)
| CantToggleDeleted   (* Can't toggle a deleted task. *)
| NothingToUndo       (* Nothing to undo yet. *)
| UndoNotSupported    (* Undo not supported for that action yet. *)
| UndoFailed          (* Undo failed (task may have been removed). *)
| UndidLast.          (* Undid last action. *)

(** Targets of [url_for]. *)
Inductive endpoint :=
| Index (show : option string)
| EditPage (tid : Z).

(** What a write handler answers: a redirect, possibly after a flash, or an
    exception nobody catches. *)
Inductive response :=
| Redirect (fl : option (message * category)) (target : endpoint)
| TaskNotFound        (* ValueError("Task not found") out of fetch_task *)
| IntOverflow.        (* OverflowError out of binding the id in fetch_task *)

(** [fetch_task]: the row, or the exception it raises.  Binding an id that
    does not fit 64 bits raises [OverflowError] before the [SELECT] runs; an
    id that fits and has no row raises [ValueError("Task not found")].  The
    keys of a table fit 64 bits, so an id that does not fit has no row, and
    the row can be looked up first. *)
Definition fetch_task (db : DB) (tid : Z) : task + response :=
  match tasks db !! tid with
  | Some row => inl row
  | None => inr (if sqlite_int tid then TaskNotFound else IntOverflow)
  end.

(** ** Write handlers *)

(** [POST /add] *)
Definition add_task (form_title form_due : option string) (ts : string)
    (db : DB) : DB * response :=
  let title := Py.strip (Py.or_empty form_title) in
  let due_date := Py.or_none (Py.strip (Py.or_empty form_due)) in
  if String.eqb title "" then
    (db, Redirect (Some (TitleEmpty, flash_error)) (Index None))
  else
    let tid := next_rowid (tasks_seq db) (tasks db) in
    let db1 := MkDB (<[tid := Task title due_date 0 0 ts ts]> (tasks db))
                    (events db) tid (events_seq db) in
    (log_event "create" (Some tid)
       (<["title" := JStr title]> (<["due_date" := jstr_opt due_date]> ∅))
       ts db1,
     Redirect None (Index None)).

(** [POST /toggle/<int:task_id>] *)
Definition toggle_task (tid : Z) (ts : string) (db : DB) : DB * response :=
  match fetch_task db tid with
  | inr e => (db, e)
  | inl t =>
    if deleted t =? 1 then
      (db, Redirect (Some (CantToggleDeleted, flash_error))
                    (Index (Some "deleted")))
    else
      let before_done := done t in
      let after_done := if before_done =? 1 then 0 else 1 in
      let db1 := set_tasks (update_where_id (Some tid)
                              (set_done after_done ts)) db in
      (log_event "toggle" (Some tid)
         (<["before_done" := JInt before_done]>
            (<["after_done" := JInt after_done]> ∅))
         ts db1,
       Redirect None (Index None))
  end.

(** [POST /edit/<int:task_id>] *)
Definition edit_task (tid : Z) (form_title form_due : option string)
    (ts : string) (db : DB) : DB * response :=
  let new_title := Py.strip (Py.or_empty form_title) in
  let new_due := Py.or_none (Py.strip (Py.or_empty form_due)) in
  if String.eqb new_title "" then
    (db, Redirect (Some (TitleEmpty, flash_error)) (EditPage tid))
  else
    match fetch_task db tid with
    | inr e => (db, e)
    | inl t =>
      let old_title := title t in
      let old_due := due_date t in
      let db1 := set_tasks (update_where_id (Some tid)
                              (set_title_due new_title new_due ts)) db in
      (log_event "edit" (Some tid)
         (<["before_title" := JStr old_title]>
            (<["after_title" := JStr new_title]>
               (<["before_due" := jstr_opt old_due]>
                  (<["after_due" := jstr_opt new_due]> ∅))))
         ts db1,
       Redirect None (Index None))
    end.

(** [POST /delete/<int:task_id>] *)
Definition delete_task (tid : Z) (ts : string) (db : DB) : DB * response :=
  match fetch_task db tid with
  | inr e => (db, e)
  | inl t =>
    if deleted t =? 1 then (db, Redirect None (Index (Some "deleted")))
    else
      let db1 := set_tasks (update_where_id (Some tid)
                              (set_deleted 1 ts)) db in
      (log_event "delete" (Some tid)
         (<["title" := JStr (title t)]>
            (<["was_done" := JInt (done t)]>
               (<["due_date" := jstr_opt (due_date t)]> ∅)))
         ts db1,
       Redirect None (Index None))
  end.

(** [POST /restore/<int:task_id>] *)
Definition restore_task (tid : Z) (ts : string) (db : DB) : DB * response :=
  match fetch_task db tid with
  | inr e => (db, e)
  | inl t =>
    if deleted t =? 0 then (db, Redirect None (Index None))
    else
      let db1 := set_tasks (update_where_id (Some tid)
                              (set_deleted 0 ts)) db in
      (log_event "restore" (Some tid)
         (<["title" := JStr (title t)]>
            (<["due_date" := jstr_opt (due_date t)]> ∅))
         ts db1,
       Redirect None (Index (Some "deleted")))
  end.

(** ** Undo *)

(** What the [try] block of [undo_last] comes to: the task table after the
    inverse statement, the [else] branch, or the [except] branch. *)
Inductive attempt :=
| Applied (m : gmap Z task)
| Unsupported
| Failed.

(** A payload value bound to a [TEXT] column: [None] is SQL [NULL], which
    an absent key ([payload.get]) and a JSON null both give; an integer is
    stored as its decimal text. *)
Definition sql_text (v : option jval) : option string :=
  match v with
  | Some (JStr s) => Some s
  | Some (JInt n) => Some (pretty n)
  | Some JNull | None => None
  end.

Section Undo.

(** Python's [int] on a string; its grammar is the interpreter's, so it is
    a parameter here.  [None] stands for [ValueError]. *)
Variable int_of_str : string → option Z.

(** [int(v)]; [None] stands for the [TypeError] on [None] or the
    [ValueError] on a string. *)
Definition py_int (v : jval) : option Z :=
  match v with
  | JInt n => Some n
  | JStr s => int_of_str s
  | JNull => None
  end.

(** Whether a payload value can be bound to a statement: an integer has to
    fit 64 bits. *)
Definition bindable (v : option jval) : bool :=
  match v with
  | Some (JInt n) => sqlite_int n
  | _ => true
  end.

(** The [try] block.  [payload["before_done"]] raises on an absent key.
    Binding an integer of the payload that does not fit 64 bits raises,
    whether or not a row matches.  [title] is declared [NOT NULL]: setting
    it to [NULL] raises exactly when the statement has a row to update.
    [task_id] was read from the [events] table, so it fits. *)
Definition undo_inverse (ev : event) (ts : string) (m : gmap Z task)
    : attempt :=
  if String.eqb (action ev) "create" then
    Applied (delete_where_id (task_id ev) m)
  else if String.eqb (action ev) "toggle" then
    match payload ev !! "before_done" ≫= py_int with
    | Some before_done =>
      if sqlite_int before_done then
        Applied (update_where_id (task_id ev) (set_done before_done ts) m)
      else Failed
    | None => Failed
    end
  else if String.eqb (action ev) "edit" then
    let before_title := payload ev !! "before_title" in
    let before_due := payload ev !! "before_due" in
    if bindable before_title && bindable before_due then
      match sql_text before_title with
      | Some ti =>
        Applied (update_where_id (task_id ev)
                   (set_title_due ti (sql_text before_due) ts) m)
      | None =>
        match task_id ev ≫= (m !!.) with
        | Some _ => Failed
        | None => Applied m
        end
      end
    else Failed
  else if String.eqb (action ev) "delete" then
    Applied (update_where_id (task_id ev) (set_deleted 0 ts) m)
  else if String.eqb (action ev) "restore" then
    Applied (update_where_id (task_id ev) (set_deleted 1 ts) m)
  else Unsupported.

(** [POST /undo] *)
Definition undo_last (ts : string) (db : DB) : DB * response :=
  match last_event (events db) with
  | None => (db, Redirect (Some (NothingToUndo, flash_info)) (Index None))
  | Some (eid, ev) =>
    match undo_inverse ev ts (tasks db) with
    | Unsupported =>
      (db, Redirect (Some (UndoNotSupported, flash_error)) (Index None))
    | Failed =>
      (db, Redirect (Some (UndoFailed, flash_error)) (Index None))
    | Applied m =>
      (MkDB m (delete eid (events db)) (tasks_seq db) (events_seq db),
       Redirect (Some (UndidLast, flash_success)) (Index None))
    end
  end.

End Undo.

(** ** Ordering of SQL values *)

(** A three-way comparison; [ORDER BY] sorts by such comparisons, key after
    key. *)
Class Cmp (A : Type) := cmp : A → A → comparison.
Global Hint Mode Cmp ! : typeclass_instances.

(** Integers. *)
Global Instance cmp_Z : Cmp Z := Z.compare.

(** Text, character by character. *)
Global Instance cmp_text : Cmp string := String.compare.

(** A nullable column: [NULL] sorts below every value. *)
Global Instance cmp_nullable `{Cmp A} : Cmp (option A) := λ x y,
  match x, y with
  | None, None => Eq
  | None, Some _ => Lt
  | Some _, None => Gt
  | Some a, Some b => cmp a b
  end.

(** A key sorted [DESC]. *)
Record desc (A : Type) := Desc { asc : A }.
Global Arguments Desc {A} _.
Global Arguments asc {A} _.

Global Instance cmp_desc `{Cmp A} : Cmp (desc A) := λ x y,
  cmp (asc y) (asc x).

(** Two keys in a row: the second decides where the first is equal. *)
Global Instance cmp_pair `{Cmp A, Cmp B} : Cmp (A * B) := λ x y,
  match cmp x.1 y.1 with
  | Eq => cmp x.2 y.2
  | c => c
  end.

(** [x] may come before [y]. *)
Definition cmp_le `{Cmp A} (x y : A) : Prop := cmp x y ≠ Gt.

Global Instance cmp_le_dec `{Cmp A} : RelDecision (cmp_le (A:=A)).
Proof. intros x y. unfold cmp_le. destruct (cmp x y); [left|left|right]; congruence. Defined.

(** The laws that make a comparison a total order. *)
Class CmpOrder (A : Type) `{Cmp A} := {
  cmp_eq_iff (x y : A) : cmp x y = Eq ↔ x = y;
  cmp_antisym (x y : A) : cmp x y = CompOpp (cmp y x);
  cmp_lt_trans (x y z : A) : cmp x y = Lt → cmp y z = Lt → cmp x z = Lt
}.

(** ** The task list *)

Inductive badge := Overdue | DueToday | Scheduled.

(** A listed row: [dict(r)] with its ["badge"] entry. *)
Record shown := Shown {
  row_id : Z;
  row : task;
  row_badge : option badge
}.

(** What [index] hands to the template. *)
Record page := Page {
  page_tasks : list shown;
  page_show : string;
  page_sort : string;
  page_last_event : option (Z * string * string)
}.

(** The [WHERE] clause chosen from [show]. *)
Definition where_clause (show : string) (t : task) : bool :=
  if String.eqb show "all" then deleted t =? 0
  else if String.eqb show "completed" then (deleted t =? 0) && (done t =? 1)
  else if String.eqb show "deleted" then deleted t =? 1
  else (deleted t =? 0) && (done t =? 0).

(** A task has a due date when the column holds a non-empty text; this is
    the test of the badge code, [t.get("due_date")]. *)
Definition dated (t : task) : bool := Py.truthy (due_date t).

(** [CASE WHEN due_date IS NULL OR due_date='' THEN 1 ELSE 0 END] *)
Definition due_missing (t : task) : Z :=
  match due_date t with
  | None => 1
  | Some d => if String.eqb d "" then 1 else 0
  end.

(** The keys of [ORDER BY ..., due_date ASC, updated_at DESC]. *)
Definition due_key (r : Z * task) : Z * (option string * desc string) :=
  (due_missing r.2, (due_date r.2, Desc (updated_at r.2))).

(** The key of [ORDER BY updated_at DESC]. *)
Definition recent_key (r : Z * task) : desc string := Desc (updated_at r.2).

Definition by_due (r1 r2 : Z * task) : Prop :=
  cmp_le (due_key r1) (due_key r2).

Definition by_recent (r1 r2 : Z * task) : Prop :=
  cmp_le (recent_key r1) (recent_key r2).

Global Instance by_due_dec : RelDecision by_due.
Proof. intros r1 r2. unfold by_due. apply _. Defined.

Global Instance by_recent_dec : RelDecision by_recent.
Proof. intros r1 r2. unfold by_recent. apply _. Defined.

(** [SELECT * FROM tasks {where} {order}].  Rows that agree on every key
    are left in the order the table yields them; SQL does not fix it. *)
Definition select_tasks (show sort : string) (m : gmap Z task)
    : list (Z * task) :=
  let rows := List.filter (λ r, where_clause show r.2) (map_to_list m) in
  if String.eqb sort "due" then merge_sort by_due rows
  else merge_sort by_recent rows.

(** The badge of one listed row. *)
Definition badge_of (today : string) (t : task) : option badge :=
  if (deleted t =? 0) && (done t =? 0) && dated t then
    match due_date t with
    | Some d =>
      if String.ltb d today then Some Overdue
      else if String.eqb d today then Some DueToday
      else Some Scheduled
    | None => None
    end
  else None.

Definition decorate (today : string) (r : Z * task) : shown :=
  Shown r.1 r.2 (badge_of today r.2).

(** [GET /]: only [SELECT]s run, so the database comes back as it was.
    [show] and [sort] are the query parameters, [today] is
    [date.today().isoformat()]. *)
Definition index (arg_show arg_sort : option string) (today : string)
    (db : DB) : DB * page :=
  let show := default "active" arg_show in
  let sort := default "recent" arg_sort in
  let tasks_rows := select_tasks show sort (tasks db) in
  let last := (λ e, (e.1, action e.2, ev_created_at e.2))
                <$> last_event (events db) in
  (db, Page (decorate today <$> tasks_rows) show sort last).

(** ** ISO dates *)

(** Calendar order on year, month and day. *)
Global Instance cmp_N : Cmp N := N.compare.

Definition digit (n : N) : ascii := ascii_of_N (48 + n).

Definition two_digits (n : N) (rest : string) : string :=
  String (digit (n / 10)) (String (digit (n mod 10)) rest).

Definition four_digits (n : N) (rest : string) : string :=
  two_digits (n / 100) (two_digits (n mod 100) rest).

(** [date(y, m, d).isoformat()], the form of [today] and of the value an
    HTML date field submits: YYYY-MM-DD, zero padded. *)
Definition isoformat (y m d : N) : string :=
  four_digits y (String "-" (two_digits m (String "-" (two_digits d "")))).

(** ** Sample states *)

(** One task, created on an empty database. *)
Definition db_created : DB :=
  (add_task (Some "buy milk") (Some "2025-06-14") "2025-06-01T08:00:00Z"
     empty_db).1.

(** The task toggled once. *)
Definition db_toggled : DB :=
  (toggle_task 1 "2025-06-01T09:00:00Z" db_created).1.

(** The task toggled a second time. *)
Definition db_toggled_twice : DB :=
  (toggle_task 1 "2025-06-01T09:30:00Z" db_toggled).1.

(** The created task with, as the most recent event, a toggle whose
    payload stores 2^63 as [before_done]: a payload the application does not
    write, with an integer JSON allows and SQLite does not. *)
Definition db_huge_before_done : DB :=
  set_events (<[2 := Event "toggle" (Some 1)
                       (<["before_done" := JInt (2 ^ 63)]>
                          (<["after_done" := JInt 1]> ∅))
                       "2025-06-01T09:00:00Z"]>) db_created.

(** The task soft-deleted instead. *)
Definition db_deleted : DB :=
  (delete_task 1 "2025-06-01T10:00:00Z" db_created).1.

(** The soft-deleted task restored. *)
Definition db_restored : DB :=
  (restore_task 1 "2025-06-01T11:00:00Z" db_deleted).1.

(** The created task given another title and no due date. *)
Definition db_edited : DB :=
  (edit_task 1 (Some "buy oat milk") None "2025-06-01T11:00:00Z"
     db_created).1.

(** The soft-deleted task given another title and no due date without an
    event being logged, so that the delete event is still the most recent
    one and its payload no longer describes the row. *)
Definition db_deleted_retitled : DB :=
  set_tasks (alter (set_title_due "buy oat milk" None "2025-06-01T11:00:00Z")
               1) db_deleted.

(** The toggled task's row removed from the store behind the application's
    back, its two events still in the log. *)
Definition db_stale : DB := set_tasks (delete 1) db_toggled.

(** Three open tasks: one due in June that was touched last, one without a
    due date, one due in January that was touched first. *)
Definition db_three : DB :=
  MkDB (<[1 := Task "report" (Some "2025-06-01") 0 0
                 "2025-05-01T08:00:00Z" "2025-05-09T08:00:00Z"]>
          (<[2 := Task "call" None 0 0
                    "2025-05-02T08:00:00Z" "2025-05-05T08:00:00Z"]>
             (<[3 := Task "taxes" (Some "2025-01-01") 0 0
                       "2025-05-03T08:00:00Z" "2025-05-03T08:00:00Z"]> ∅)))
       ∅ 3 0.

(** Two open tasks without a date: the first has [NULL] in [due_date], the
    second, touched later, has the empty string. *)
Definition db_null_empty : DB :=
  MkDB (<[1 := Task "older" None 0 0
                 "2025-05-01T08:00:00Z" "2025-05-01T08:00:00Z"]>
          (<[2 := Task "newer" (Some "") 0 0
                    "2025-05-02T08:00:00Z" "2025-05-02T08:00:00Z"]> ∅))
       ∅ 2 0.

(** An [int] that accepts no string at all. *)
Definition no_int_of_str : string → option Z := λ _, None.

(** ** Routes *)

(** The write routes, each with what its URL and form carry. *)
Inductive request :=
| PostAdd (form_title form_due : option string)
| PostToggle (tid : Z)
| PostEdit (tid : Z) (form_title form_due : option string)
| PostDelete (tid : Z)
| PostRestore (tid : Z)
| PostUndo.

(** The handler a write route is bound to. *)
Definition serve (int_of_str : string → option Z) (r : request)
    (ts : string) (db : DB) : DB * response :=
  match r with
  | PostAdd form_title form_due => add_task form_title form_due ts db
  | PostToggle tid => toggle_task tid ts db
  | PostEdit tid form_title form_due =>
    edit_task tid form_title form_due ts db
  | PostDelete tid => delete_task tid ts db
  | PostRestore tid => restore_task tid ts db
  | PostUndo => undo_last int_of_str ts db
  end.

(** Requests served one after the other, each at its own clock reading. *)
Fixpoint run (int_of_str : string → option Z)
    (rs : list (request * string)) (db : DB) : DB :=
  match rs with
  | [] => db
  | (r, ts) :: rs' => run int_of_str rs' (serve int_of_str r ts db).1
  end.

(** [GET /activity]: [SELECT * FROM events ORDER BY id DESC LIMIT 200]. *)
Definition by_id_desc (e1 e2 : Z * event) : Prop :=
  cmp_le (Desc e1.1) (Desc e2.1).

Global Instance by_id_desc_dec : RelDecision by_id_desc.
Proof. intros e1 e2. unfold by_id_desc. apply _. Defined.

Definition events_newest_first (E : gmap Z event) : list (Z * event) :=
  merge_sort by_id_desc (map_to_list E).

Definition activity (db : DB) : list (Z * event) :=
  take 200 (events_newest_first (events db)).

(** ** Login *)

(** The part of the Flask session the application reads: whether
    [session.get("authed")] is true. *)
Record session := Session { authed : bool }.

(** [APP_PASSWORD]: the environment variable, "1234" when it is not set. *)
Definition app_password (env : option string) : string := default "1234" env.

(** What [POST /login] answers: a redirect to the task list, or the
    "Wrong password." flash and a redirect to the login page. *)
Inductive login_response := LoginOk | WrongPassword.

(** [POST /login] *)
Definition login_post (password : string) (form_password : option string)
    (s : session) : session * login_response :=
  let pw := Py.strip (Py.or_empty form_password) in
  if String.eqb pw password then (Session true, LoginOk)
  else (s, WrongPassword).

(** [POST /logout]: [session.clear()]. *)
Definition logout (s : session) : session := Session false.

(** What a route behind [login_required] answers: the redirect to the login
    page, or what the wrapped handler answers. *)
Inductive gated (A : Type) :=
| ToLogin
| Passed (a : A).
Global Arguments ToLogin {A}.
Global Arguments Passed {A} _.

(** The [login_required] decorator around a handler. *)
Definition login_required {A} (fn : DB → DB * A) (s : session) (db : DB)
    : DB * gated A :=
  if authed s then (let r := fn db in (r.1, Passed r.2))
  else (db, ToLogin).

(** Everything a browser can post. *)
Inductive app_request :=
| PostLogin (form_password : option string)
| PostLogout
| Protected (r : request).

(** One posted request against the session and the database. *)
Definition app_step (password : string) (int_of_str : string → option Z)
    (a : app_request) (ts : string) (st : session * DB) : session * DB :=
  match a with
  | PostLogin form_password => ((login_post password form_password st.1).1, st.2)
  | PostLogout => (logout st.1, st.2)
  | Protected r =>
    (st.1, (login_required (serve int_of_str r ts) st.1 st.2).1)
  end.

Fixpoint app_run (password : string) (int_of_str : string → option Z)
    (rs : list (app_request * string)) (st : session * DB) : session * DB :=
  match rs with
  | [] => st
  | (a, ts) :: rs' =>
    app_run password int_of_str rs' (app_step password int_of_str a ts st)
  end.

(** ** Consistency of the log with the task table *)

(** A flag column holds 0 or 1. *)
Definition flag (z : Z) : Prop := z = 0 ∨ z = 1.

Global Instance flag_dec z : Decision (flag z).
Proof. unfold flag. apply _. Defined.

(** A text that is empty or starts with a character that is not
    whitespace. *)
Definition starts_clean (s : string) : Prop :=
  match s with
  | EmptyString => True
  | String c _ => Py.isspace c = false
  end.

(** A text that trimming leaves as it is, and a nullable such text. *)
Definition trimmed (s : string) : Prop := Py.strip s = s.

Definition trimmed_or_null (x : option string) : Prop :=
  ∀ d, x = Some d → d ≠ "" ∧ trimmed d.

(** A row as the handlers write it: a title that is not empty and has no
    whitespace at either end, a due date that is [NULL] or such a text,
    and flags that are 0 or 1. *)
Definition task_ok (t : task) : Prop :=
  title t ≠ "" ∧ trimmed (title t) ∧ trimmed_or_null (due_date t)
  ∧ flag (done t) ∧ flag (deleted t).

(** An event as [log_event] is called: a known action, and for a toggle
    or an edit the "before" values undo reads. *)
Definition payload_ok (ev : event) : Prop :=
  action ev = "create" ∨ action ev = "delete" ∨ action ev = "restore"
  ∨ (action ev = "toggle"
     ∧ ∃ b, payload ev !! "before_done" = Some (JInt b) ∧ flag b)
  ∨ (action ev = "edit"
     ∧ ∃ ti du, payload ev !! "before_title" = Some (JStr ti)
                ∧ ti ≠ "" ∧ trimmed ti
                ∧ payload ev !! "before_due" = Some (jstr_opt du)
                ∧ trimmed_or_null du).

(** [ev] is the create event of task [tid]. *)
Definition creates (tid : Z) (ev : event) : Prop :=
  action ev = "create" ∧ task_id ev = Some tid.

(** What holds of the database as long as only the handlers write to it. *)
Record consistent (db : DB) : Prop := Consistent {
  tasks_below_seq :
    ∀ tid, is_Some (tasks db !! tid) → tid ≤ tasks_seq db;
  events_below_seq :
    ∀ eid, is_Some (events db !! eid) → eid ≤ events_seq db;
  tasks_ok : ∀ tid t, tasks db !! tid = Some t → task_ok t;
  events_ok :
    ∀ eid ev, events db !! eid = Some ev →
      payload_ok ev
      ∧ ∃ tid, task_id ev = Some tid ∧ is_Some (tasks db !! tid)
               ∧ ∃ c ce, c ≤ eid ∧ events db !! c = Some ce
                         ∧ creates tid ce;
  create_unique :
    ∀ c1 c2 e1 e2 tid,
      events db !! c1 = Some e1 → events db !! c2 = Some e2 →
      creates tid e1 → creates tid e2 → c1 = c2;
  tasks_created :
    ∀ tid, is_Some (tasks db !! tid) →
      ∃ c ce, events db !! c = Some ce ∧ creates tid ce
}.

(** Two rows that differ at most in [updated_at]. *)
Definition same_but_updated_at (t t' : task) : Prop :=
  title t = title t' ∧ due_date t = due_date t' ∧ done t = done t'
  ∧ deleted t = deleted t' ∧ created_at t = created_at t'.

(** Two open tasks without a due date, created one day apart. *)
Definition db_two_undated : DB :=
  run no_int_of_str
    [(PostAdd (Some "older") None, "2025-05-01T08:00:00Z");
     (PostAdd (Some "newer") None, "2025-05-02T08:00:00Z")] empty_db.

(** * Properties *)

(** ** Looking a task up *)

(** On a table whose keys fit 64 bits, [fetch_task] is the bind followed by
    the [SELECT], in the order the source runs them: an id that does not fit
    raises [OverflowError]; one that fits gives its row, or "Task not found"
    when it has none. *)
Lemma fetch_task_bind_then_select db tid :
  (∀ k, is_Some (tasks db !! k) → sqlite_int k = true) →
  fetch_task db tid
  = if sqlite_int tid then
      match tasks db !! tid with
      | Some row => inl row
      | None => inr TaskNotFound
      end
    else inr IntOverflow.
Proof.
  intros Hkeys. unfold fetch_task.
  destruct (tasks db !! tid) as [row|] eqn:E; [|by destruct (sqlite_int tid)].
  by rewrite (Hkeys tid) by (by rewrite E).
Qed.

(** ** Keys and the most recent event *)

Section Rowids.
Context {A : Type}.
Implicit Types m : gmap Z A.

Lemma max_rowid_ge m k : is_Some (m !! k) → k ≤ max_rowid m.
Proof.
  unfold max_rowid. revert k.
  induction m as [|i x m Hi Hfold IH] using map_first_key_ind; intros k Hk.
  - rewrite lookup_empty in Hk. by destruct Hk.
  - rewrite map_fold_insert_first_key by done.
    rewrite lookup_insert in Hk. case_decide; subst; [lia|].
    specialize (IH k Hk). lia.
Qed.

Lemma next_rowid_gt seq m k : is_Some (m !! k) → k < next_rowid seq m.
Proof. intros Hk%max_rowid_ge. unfold next_rowid. lia. Qed.

Lemma next_rowid_fresh seq m : m !! next_rowid seq m = None.
Proof.
  destruct (m !! next_rowid seq m) eqn:E; [|done].
  assert (next_rowid seq m < next_rowid seq m); [|lia].
  apply next_rowid_gt. by rewrite E.
Qed.

Lemma next_rowid_gt_seq seq m : seq < next_rowid seq m.
Proof. unfold next_rowid. lia. Qed.
End Rowids.

Lemma last_event_spec (m : gmap Z event) :
  match last_event m with
  | None => m = ∅
  | Some (k, v) => m !! k = Some v ∧ ∀ k', is_Some (m !! k') → k' ≤ k
  end.
Proof.
  unfold last_event.
  induction m as [|i x m Hi Hfold IH] using map_first_key_ind; [done|].
  rewrite map_fold_insert_first_key by done.
  destruct (map_fold _ None m) as [[k v]|].
  - destruct IH as [Hk Hmax]. destruct (Z.ltb_spec k i).
    + split; [apply lookup_insert_eq|]. intros k'.
      rewrite lookup_insert. case_decide; [lia|]. intros ?%Hmax. lia.
    + split.
      * rewrite lookup_insert_ne; [done|]. intros ->. by rewrite Hi in Hk.
      * intros k'. rewrite lookup_insert. case_decide; [lia|]. apply Hmax.
  - subst m. split; [apply lookup_insert_eq|]. intros k'.
    rewrite lookup_insert. case_decide; [lia|].
    rewrite lookup_empty. by intros [].
Qed.

Lemma last_event_None (m : gmap Z event) : last_event m = None ↔ m = ∅.
Proof.
  split.
  - intros E. pose proof (last_event_spec m) as H. by rewrite E in H.
  - intros ->. done.
Qed.

Lemma last_event_max (m : gmap Z event) k v :
  m !! k = Some v → (∀ k', is_Some (m !! k') → k' ≤ k) →
  last_event m = Some (k, v).
Proof.
  intros Hk Hmax. pose proof (last_event_spec m) as H.
  destruct (last_event m) as [[k2 v2]|].
  - destruct H as [Hk2 Hmax2].
    assert (k2 = k) as ->.
    { apply Z.le_antisymm; [apply Hmax|apply Hmax2]; eauto. }
    congruence.
  - subst m. by rewrite lookup_empty in Hk.
Qed.

Lemma last_event_insert_next (m : gmap Z event) seq e :
  last_event (<[next_rowid seq m := e]> m) = Some (next_rowid seq m, e).
Proof.
  apply last_event_max; [apply lookup_insert_eq|].
  intros k'. rewrite lookup_insert. case_decide; [lia|].
  intros ?%(next_rowid_gt seq). lia.
Qed.

Lemma last_event_log act tid pl ts db :
  last_event (events (log_event act tid pl ts db))
  = Some (next_rowid (events_seq db) (events db), Event act tid pl ts).
Proof. apply last_event_insert_next. Qed.

Lemma delete_logged act tid pl ts db :
  delete (next_rowid (events_seq db) (events db))
         (events (log_event act tid pl ts db)) = events db.
Proof. apply delete_insert_id, next_rowid_fresh. Qed.

(** ** Trimming *)

Lemma lstrip_empty_iff s :
  Py.lstrip s = "" ↔ ∀ c, c ∈ String.list_ascii_of_string s → Py.isspace c = true.
Proof.
  induction s as [|a s IH]; simpl.
  - split; [|done]. intros _ c Hc. by apply elem_of_nil in Hc.
  - destruct (Py.isspace a) eqn:Ha.
    + rewrite IH. split.
      * intros H c [->|Hc]%elem_of_cons; [done|by apply H].
      * intros H c Hc. apply H. by apply list_elem_of_further.
    + split; [done|]. intros H.
      rewrite (H a) in Ha by apply list_elem_of_here. done.
Qed.

Lemma chars_rev_app s1 s2 :
  String.list_ascii_of_string (String.rev_app s1 s2) = rev_append (String.list_ascii_of_string s1) (String.list_ascii_of_string s2).
Proof. revert s2. induction s1 as [|a s1 IH]; intros s2; simpl; [done|apply IH]. Qed.

Lemma chars_rev s : String.list_ascii_of_string (String.rev s) = reverse (String.list_ascii_of_string s).
Proof. unfold String.rev. by rewrite chars_rev_app. Qed.

Lemma chars_empty s : String.list_ascii_of_string s = [] ↔ s = "".
Proof. destruct s; simpl; split; congruence. Qed.

Lemma rstrip_empty_iff s :
  Py.rstrip s = "" ↔ ∀ c, c ∈ String.list_ascii_of_string s → Py.isspace c = true.
Proof.
  unfold Py.rstrip. rewrite <- chars_empty, chars_rev.
  rewrite <- (reverse_involutive []), (inj_iff reverse).
  change (reverse []) with (@nil ascii). rewrite chars_empty, lstrip_empty_iff.
  rewrite chars_rev. by setoid_rewrite elem_of_reverse.
Qed.

Lemma lstrip_first s :
  match Py.lstrip s with
  | EmptyString => True
  | String c _ => Py.isspace c = false
  end.
Proof.
  induction s as [|a s IH]; simpl; [done|].
  destruct (Py.isspace a) eqn:Ha; done.
Qed.

(** A text is empty once trimmed exactly when all its characters are
    whitespace. *)
Lemma strip_empty_iff s :
  Py.strip s = "" ↔ ∀ c, c ∈ String.list_ascii_of_string s → Py.isspace c = true.
Proof.
  unfold Py.strip. rewrite rstrip_empty_iff, <- (lstrip_empty_iff s).
  pose proof (lstrip_first s) as Hfirst.
  destruct (Py.lstrip s) as [|c r]; simpl.
  - split; [done|]. intros _ c Hc. by apply elem_of_nil in Hc.
  - split; [|done]. intros H.
    rewrite (H c) in Hfirst by apply list_elem_of_here. done.
Qed.

(** ** Creating, toggling, deleting, restoring *)

(** C5.  When the submitted title is empty once trimmed (absent, empty or
    made of whitespace only), [add_task] answers with the "title can't be
    empty" error flash and hands the database back exactly as it was: no task
    row and no event are written. *)
Theorem add_task_blank_title_rejected form_title form_due ts db :
  Py.strip (Py.or_empty form_title) = "" →
  add_task form_title form_due ts db
  = (db, Redirect (Some (TitleEmpty, flash_error)) (Index None)).
Proof. intros H. unfold add_task. by rewrite H. Qed.

Lemma add_task_blank_title_rejected_witness :
  add_task (Some "   ") (Some "2025-06-15") "2025-06-01T08:00:00Z" empty_db
  = (empty_db, Redirect (Some (TitleEmpty, flash_error)) (Index None)).
Proof. apply add_task_blank_title_rejected. reflexivity. Defined.

(** C6 (as amended).  [toggle_task] on a row whose [deleted] is 1 answers
    with the "can't toggle a deleted task" error flash and leaves the
    database as it was; on an id without a row it leaves the database as it
    was and raises "Task not found" when the id fits SQLite's 64-bit
    integers, [OverflowError] when it does not; on any other row it flips
    [done] (0 becomes 1, 1 becomes 0), stamps [updated_at], touches no other
    column and no other row, and logs one toggle event. *)
Theorem toggle_task_cases tid ts db :
  (∀ t, tasks db !! tid = Some t → deleted t = 1 →
     toggle_task tid ts db
     = (db, Redirect (Some (CantToggleDeleted, flash_error))
                     (Index (Some "deleted"))))
  ∧ (tasks db !! tid = None → sqlite_int tid = true →
       toggle_task tid ts db = (db, TaskNotFound))
  ∧ (tasks db !! tid = None → sqlite_int tid = false →
       toggle_task tid ts db = (db, IntOverflow))
  ∧ (∀ t, tasks db !! tid = Some t → deleted t ≠ 1 →
       let after := if done t =? 1 then 0 else 1 in
       let db' := (toggle_task tid ts db).1 in
       tasks db' = <[tid := set_done after ts t]> (tasks db)
       ∧ (∃ t', tasks db' !! tid = Some t'
                ∧ done t' = after ∧ updated_at t' = ts
                ∧ title t' = title t ∧ due_date t' = due_date t
                ∧ deleted t' = deleted t ∧ created_at t' = created_at t)
       ∧ (∀ j, j ≠ tid → tasks db' !! j = tasks db !! j)
       ∧ (done t = 0 → after = 1) ∧ (done t = 1 → after = 0)
       ∧ (toggle_task tid ts db).2 = Redirect None (Index None)
       ∧ ∃ pl, last_event (events db')
               = Some (next_rowid (events_seq db) (events db),
                       Event "toggle" (Some tid) pl ts)
             ∧ pl !! "before_done" = Some (JInt (done t))).
Proof.
  unfold toggle_task, fetch_task. split; [|split; [|split]].
  - intros t -> ->. done.
  - intros -> ->. done.
  - intros -> ->. done.
  - intros t Ht Hdel%Z.eqb_neq. rewrite Ht, Hdel. simpl.
    assert (alter (set_done (if done t =? 1 then 0 else 1) ts) tid (tasks db)
            = <[tid := set_done (if done t =? 1 then 0 else 1) ts t]>
                (tasks db)) as ->.
    { apply map_eq. intros j. rewrite lookup_alter, lookup_insert.
      case_decide; subst; [by rewrite Ht|done]. }
    split; [done|]. split; [|split; [|split; [|split; [|split]]]].
    + eexists. rewrite lookup_insert_eq. split; [done|]. by repeat split.
    + intros j Hj. by rewrite lookup_insert_ne.
    + intros ->. done.
    + intros ->. done.
    + done.
    + eexists. split; [apply last_event_insert_next|]. apply lookup_insert_eq.
Qed.

Lemma toggle_task_cases_witness :
  toggle_task 1 "2025-06-02T08:00:00Z" db_deleted
  = (db_deleted, Redirect (Some (CantToggleDeleted, flash_error))
                          (Index (Some "deleted")))
  ∧ toggle_task 7 "2025-06-02T08:00:00Z" db_created
    = (db_created, TaskNotFound)
  ∧ toggle_task (2 ^ 63) "2025-06-02T08:00:00Z" db_created
    = (db_created, IntOverflow)
  ∧ done <$> tasks db_toggled !! 1 = Some 1
  ∧ done <$> tasks db_toggled_twice !! 1 = Some 0.
Proof.
  split; [|split; [|split; [|split]]].
  - eapply (proj1 (toggle_task_cases 1 _ db_deleted)); reflexivity.
  - apply (proj1 (proj2 (toggle_task_cases 7 _ db_created))); reflexivity.
  - apply (proj1 (proj2 (proj2 (toggle_task_cases (2 ^ 63) _ db_created))));
      reflexivity.
  - unfold db_toggled.
    destruct (proj2 (proj2 (proj2 (toggle_task_cases 1 "2025-06-01T09:00:00Z"
                db_created)))
              (Task "buy milk" (Some "2025-06-14") 0 0
                 "2025-06-01T08:00:00Z" "2025-06-01T08:00:00Z"))
      as (_ & (t' & -> & Hd & _) & _); [reflexivity|discriminate|].
    simpl. by rewrite Hd.
  - unfold db_toggled_twice.
    destruct (proj2 (proj2 (proj2 (toggle_task_cases 1 "2025-06-01T09:30:00Z"
                db_toggled)))
              (Task "buy milk" (Some "2025-06-14") 1 0
                 "2025-06-01T08:00:00Z" "2025-06-01T09:00:00Z"))
      as (_ & (t' & -> & Hd & _) & _);
      [vm_compute; reflexivity|discriminate|].
    simpl. by rewrite Hd.
Defined.

(** C6 as stated fails: an id without a row does not always give "Task
    not found".  The id 2^63, which the route accepts, makes the bind of
    [fetch_task] raise [OverflowError]. *)
Lemma toggle_huge_id_counterexample :
  ¬ (∀ tid ts db, tasks db !! tid = None →
       toggle_task tid ts db = (db, TaskNotFound)).
Proof.
  intros H.
  pose proof (H (2 ^ 63) "2025-06-02T08:00:00Z" empty_db (lookup_empty _))
    as Habs.
  vm_compute in Habs. discriminate Habs.
Qed.

(** C7.  [delete_task] on a row whose [deleted] is already 1, and
    [restore_task] on a row whose [deleted] is 0, hand the database back
    exactly as it was: the row is unchanged and no event is appended. *)
Theorem delete_restore_noop tid ts db :
  (∀ t, tasks db !! tid = Some t → deleted t = 1 →
     delete_task tid ts db = (db, Redirect None (Index (Some "deleted"))))
  ∧ (∀ t, tasks db !! tid = Some t → deleted t = 0 →
       restore_task tid ts db = (db, Redirect None (Index None))).
Proof.
  unfold delete_task, restore_task, fetch_task.
  split; intros t -> ->; done.
Qed.

Lemma delete_restore_noop_witness :
  delete_task 1 "2025-06-02T08:00:00Z" db_deleted
  = (db_deleted, Redirect None (Index (Some "deleted")))
  ∧ restore_task 1 "2025-06-02T08:00:00Z" db_created
    = (db_created, Redirect None (Index None)).
Proof.
  split.
  - eapply (proj1 (delete_restore_noop 1 _ db_deleted)); reflexivity.
  - eapply (proj2 (delete_restore_noop 1 _ db_created)); reflexivity.
Defined.

(** ** Undo: the inverse of each action *)

Section UndoFacts.
Variable int_of_str : string → option Z.
Implicit Types (db : DB) (ev : event) (m : gmap Z task).

Lemma undo_last_applied ts db eid ev m :
  last_event (events db) = Some (eid, ev) →
  undo_inverse int_of_str ev ts (tasks db) = Applied m →
  undo_last int_of_str ts db
  = (MkDB m (delete eid (events db)) (tasks_seq db) (events_seq db),
     Redirect (Some (UndidLast, flash_success)) (Index None)).
Proof. intros Hlast Hinv. unfold undo_last. by rewrite Hlast, Hinv. Qed.

Lemma undo_last_failed ts db eid ev :
  last_event (events db) = Some (eid, ev) →
  undo_inverse int_of_str ev ts (tasks db) = Failed →
  undo_last int_of_str ts db
  = (db, Redirect (Some (UndoFailed, flash_error)) (Index None)).
Proof. intros Hlast Hinv. unfold undo_last. by rewrite Hlast, Hinv. Qed.

Lemma undo_last_empty ts db :
  events db = ∅ →
  undo_last int_of_str ts db
  = (db, Redirect (Some (NothingToUndo, flash_info)) (Index None)).
Proof. intros H. unfold undo_last. by rewrite H. Qed.

Lemma undo_inverse_create ev ts m :
  action ev = "create" →
  undo_inverse int_of_str ev ts m = Applied (delete_where_id (task_id ev) m).
Proof. intros H. unfold undo_inverse. by rewrite H. Qed.

Lemma undo_inverse_toggle ev ts m v b :
  action ev = "toggle" →
  payload ev !! "before_done" = Some v → py_int int_of_str v = Some b →
  sqlite_int b = true →
  undo_inverse int_of_str ev ts m
  = Applied (update_where_id (task_id ev) (set_done b ts) m).
Proof.
  intros H Hv Hb Hr. unfold undo_inverse. rewrite H, Hv. simpl.
  by rewrite Hb, Hr.
Qed.

Lemma undo_inverse_toggle_overflow ev ts m v b :
  action ev = "toggle" →
  payload ev !! "before_done" = Some v → py_int int_of_str v = Some b →
  sqlite_int b = false →
  undo_inverse int_of_str ev ts m = Failed.
Proof.
  intros H Hv Hb Hr. unfold undo_inverse. rewrite H, Hv. simpl.
  by rewrite Hb, Hr.
Qed.

Lemma undo_inverse_toggle_bad ev ts m :
  action ev = "toggle" →
  payload ev !! "before_done" ≫= py_int int_of_str = None →
  undo_inverse int_of_str ev ts m = Failed.
Proof. intros H Hv. unfold undo_inverse. rewrite H. simpl. by rewrite Hv. Qed.

Lemma undo_inverse_edit ev ts m ti :
  action ev = "edit" →
  payload ev !! "before_title" = Some (JStr ti) →
  bindable (payload ev !! "before_due") = true →
  undo_inverse int_of_str ev ts m
  = Applied (update_where_id (task_id ev)
               (set_title_due ti (sql_text (payload ev !! "before_due")) ts)
               m).
Proof.
  intros H Hti Hdue. unfold undo_inverse. rewrite H. simpl.
  by rewrite Hti, Hdue.
Qed.

Lemma undo_inverse_edit_no_row ev ts m :
  action ev = "edit" →
  bindable (payload ev !! "before_title") = true →
  bindable (payload ev !! "before_due") = true →
  task_id ev ≫= (m !!.) = None →
  undo_inverse int_of_str ev ts m = Applied m.
Proof.
  intros H Hbt Hbd Hrow. unfold undo_inverse. rewrite H. simpl.
  rewrite Hbt, Hbd. simpl.
  destruct (sql_text (payload ev !! "before_title")) as [ti|].
  - f_equal. destruct (task_id ev) as [i|]; simpl in *; [|done].
    apply map_eq. intros j. rewrite lookup_alter.
    case_decide; subst; [by rewrite Hrow|done].
  - by rewrite Hrow.
Qed.

Lemma undo_inverse_delete ev ts m :
  action ev = "delete" →
  undo_inverse int_of_str ev ts m
  = Applied (update_where_id (task_id ev) (set_deleted 0 ts) m).
Proof. intros H. unfold undo_inverse. by rewrite H. Qed.

Lemma undo_inverse_restore ev ts m :
  action ev = "restore" →
  undo_inverse int_of_str ev ts m
  = Applied (update_where_id (task_id ev) (set_deleted 1 ts) m).
Proof. intros H. unfold undo_inverse. by rewrite H. Qed.

Lemma update_where_id_missing tid f m :
  tid ≫= (m !!.) = None → update_where_id tid f m = m.
Proof.
  destruct tid as [i|]; simpl; [|done]. intros H.
  apply map_eq. intros j. rewrite lookup_alter.
  case_decide; subst; [by rewrite H|done].
Qed.

Lemma update_where_id_found i f m t :
  m !! i = Some t → update_where_id (Some i) f m = <[i := f t]> m.
Proof.
  intros H. simpl. apply map_eq. intros j.
  rewrite lookup_alter, lookup_insert.
  case_decide; subst; [by rewrite H|done].
Qed.

(** An undo whose event names a task that has no row (any more): the
    [UPDATE] matches nothing and raises nothing, so the undo is reported as
    done and the event is removed. *)
Lemma undo_missing_task ts db eid ev :
  last_event (events db) = Some (eid, ev) →
  task_id ev ≫= (tasks db !!.) = None →
  (action ev = "toggle"
     ∧ ∃ b, payload ev !! "before_done" ≫= py_int int_of_str = Some b
            ∧ sqlite_int b = true)
  ∨ (action ev = "edit"
     ∧ bindable (payload ev !! "before_title") = true
     ∧ bindable (payload ev !! "before_due") = true)
  ∨ action ev = "delete" ∨ action ev = "restore" →
  undo_last int_of_str ts db
  = (set_events (delete eid) db,
     Redirect (Some (UndidLast, flash_success)) (Index None)).
Proof.
  intros Hlast Hrow Hact. destruct db as [T E s1 s2]; simpl in *.
  unfold set_events; simpl.
  erewrite undo_last_applied; [reflexivity|exact Hlast|]. simpl.
  destruct Hact as [[Hact (b & Hb & Hr)]|[(Hact & Hbt & Hbd)|[Hact|Hact]]].
  - destruct (payload ev !! "before_done") as [v|] eqn:Hv; [|done].
    simpl in Hb. erewrite undo_inverse_toggle by done.
    by rewrite update_where_id_missing.
  - by apply undo_inverse_edit_no_row.
  - rewrite undo_inverse_delete by done. by rewrite update_where_id_missing.
  - rewrite undo_inverse_restore by done. by rewrite update_where_id_missing.
Qed.

End UndoFacts.

(** ** Undo: the claims *)

(** C1 (at the failing input).  In [db_stale] the most recent event is a
    toggle of task 1 and task 1 has no row.  Undo does not fail there: it
    answers "Undid last action." and removes the toggle event from the log;
    the task table stays as it was. *)
Theorem undo_stale_toggle_reported_done int_of_str ts :
  (∃ ev, last_event (events db_stale) = Some (2, ev)
         ∧ action ev = "toggle" ∧ task_id ev = Some 1)
  ∧ tasks db_stale !! 1 = None
  ∧ undo_last int_of_str ts db_stale
    = (set_events (delete 2) db_stale,
       Redirect (Some (UndidLast, flash_success)) (Index None))
  ∧ tasks (undo_last int_of_str ts db_stale).1 = tasks db_stale
  ∧ events (undo_last int_of_str ts db_stale).1 !! 2 = None
  ∧ is_Some (events db_stale !! 2).
Proof.
  assert (∃ ev, last_event (events db_stale) = Some (2, ev)
                ∧ action ev = "toggle" ∧ task_id ev = Some 1
                ∧ payload ev !! "before_done" = Some (JInt 0))
    as (ev & Hlast & Hact & Htid & Hpl).
  { eexists. split; [vm_compute; reflexivity|]. by vm_compute. }
  assert (undo_last int_of_str ts db_stale
          = (set_events (delete 2) db_stale,
             Redirect (Some (UndidLast, flash_success)) (Index None))) as Hundo.
  { apply (undo_missing_task int_of_str ts db_stale 2 ev Hlast).
    - by rewrite Htid.
    - left. split; [done|]. rewrite Hpl. by exists 0. }
  split; [by exists ev|]. split; [done|]. split; [done|].
  rewrite Hundo. split; [done|]. split; [by vm_compute|].
  eexists. vm_compute. reflexivity.
Qed.

(** C8 (as amended).  When the most recent event is a toggle of a task
    that has a row, and its payload stores as [before_done] an integer that
    fits SQLite's 64-bit integers, undo sets that row's [done] to the stored
    value and its [updated_at] to the current time; [title], [due_date],
    [deleted] and [created_at] of that row and every other row keep their
    values; the event leaves the log and success is reported. *)
Theorem undo_toggle_frame int_of_str ts db eid ev tid t b :
  last_event (events db) = Some (eid, ev) →
  action ev = "toggle" →
  task_id ev = Some tid →
  tasks db !! tid = Some t →
  payload ev !! "before_done" = Some (JInt b) →
  sqlite_int b = true →
  let db' := (undo_last int_of_str ts db).1 in
  (∃ t', tasks db' !! tid = Some t'
         ∧ done t' = b ∧ updated_at t' = ts
         ∧ title t' = title t ∧ due_date t' = due_date t
         ∧ deleted t' = deleted t ∧ created_at t' = created_at t)
  ∧ (∀ j, j ≠ tid → tasks db' !! j = tasks db !! j)
  ∧ events db' = delete eid (events db)
  ∧ (undo_last int_of_str ts db).2
    = Redirect (Some (UndidLast, flash_success)) (Index None).
Proof.
  intros Hlast Hact Htid Ht Hv Hb db'. subst db'.
  erewrite undo_last_applied;
    [|exact Hlast|by eapply undo_inverse_toggle]. simpl.
  rewrite Htid. erewrite update_where_id_found by done.
  split; [|split; [|done]].
  - eexists. rewrite lookup_insert_eq. split; [done|]. by repeat split.
  - intros j Hj. by rewrite lookup_insert_ne.
Qed.

Lemma undo_toggle_frame_witness :
  ∃ t', tasks (undo_last no_int_of_str "2025-06-03T08:00:00Z"
                 db_toggled_twice).1 !! 1 = Some t'
        ∧ done t' = 1 ∧ title t' = "buy milk".
Proof.
  destruct (undo_toggle_frame no_int_of_str "2025-06-03T08:00:00Z"
              db_toggled_twice
              3 (Event "toggle" (Some 1)
                   (<["before_done" := JInt 1]>
                      (<["after_done" := JInt 0]> ∅))
                   "2025-06-01T09:30:00Z")
              1 (Task "buy milk" (Some "2025-06-14") 0 0
                   "2025-06-01T08:00:00Z" "2025-06-01T09:30:00Z")
              1)
    as [(t' & Ht' & Hdone & _ & Htitle & _) _];
    [vm_compute; reflexivity|reflexivity|reflexivity|vm_compute; reflexivity
    |vm_compute; reflexivity|reflexivity|].
  exists t'. done.
Defined.

(** C8 as stated fails: with a toggle of an existing task as the most
    recent event, undo does not always set [done] to the stored
    [before_done].  In [db_huge_before_done] the stored integer is 2^63:
    its bind raises, undo answers "Undo failed" and [done] stays 0. *)
Lemma undo_toggle_huge_before_done_counterexample :
  ¬ (∀ int_of_str ts db eid ev tid t b,
       last_event (events db) = Some (eid, ev) →
       action ev = "toggle" →
       task_id ev = Some tid →
       tasks db !! tid = Some t →
       payload ev !! "before_done" = Some (JInt b) →
       ∃ t', tasks (undo_last int_of_str ts db).1 !! tid = Some t'
             ∧ done t' = b).
Proof.
  intros H.
  destruct (H no_int_of_str "2025-06-03T08:00:00Z" db_huge_before_done
              2 (Event "toggle" (Some 1)
                   (<["before_done" := JInt (2 ^ 63)]>
                      (<["after_done" := JInt 1]> ∅))
                   "2025-06-01T09:00:00Z")
              1 (Task "buy milk" (Some "2025-06-14") 0 0
                   "2025-06-01T08:00:00Z" "2025-06-01T08:00:00Z")
              (2 ^ 63))
    as (t' & Ht' & Hd);
    [vm_compute; reflexivity|reflexivity|reflexivity|vm_compute; reflexivity
    |vm_compute; reflexivity|].
  vm_compute in Ht'. injection Ht' as <-. vm_compute in Hd. discriminate Hd.
Qed.

(** C9.  When the most recent event is a delete, undo runs one [UPDATE]
    keyed by the event's [task_id] that sets [deleted] to 0 and stamps
    [updated_at]: the row keeps the [title], [due_date], [done] and
    [created_at] it has now, whatever the payload recorded, and the outcome
    is the same for every payload the event could carry. *)
Theorem undo_delete_frame int_of_str ts db eid ev :
  last_event (events db) = Some (eid, ev) →
  action ev = "delete" →
  let db' := (undo_last int_of_str ts db).1 in
  tasks db' = update_where_id (task_id ev) (set_deleted 0 ts) (tasks db)
  ∧ (∀ tid t, task_id ev = Some tid → tasks db !! tid = Some t →
       ∃ t', tasks db' !! tid = Some t'
             ∧ deleted t' = 0 ∧ updated_at t' = ts
             ∧ title t' = title t ∧ due_date t' = due_date t
             ∧ done t' = done t ∧ created_at t' = created_at t)
  ∧ (∀ j, task_id ev ≠ Some j → tasks db' !! j = tasks db !! j)
  ∧ (∀ pl,
       let ev' := Event (action ev) (task_id ev) pl (ev_created_at ev) in
       tasks (undo_last int_of_str ts
                (set_events (<[eid := ev']>) db)).1 = tasks db').
Proof.
  intros Hlast Hact db'. subst db'.
  erewrite undo_last_applied;
    [|exact Hlast|by apply undo_inverse_delete]. simpl.
  split; [done|]. split; [|split].
  - intros tid t -> Ht. erewrite update_where_id_found by done.
    exists (set_deleted 0 ts t). by rewrite lookup_insert_eq.
  - intros j Hj. destruct (task_id ev) as [i|]; simpl; [|done].
    rewrite lookup_alter. case_decide; [congruence|done].
  - intros pl.
    set (ev' := Event (action ev) (task_id ev) pl (ev_created_at ev)).
    assert (last_event (events (set_events (<[eid := ev']>) db))
            = Some (eid, ev')) as Hlast'.
    { simpl. apply last_event_max; [apply lookup_insert_eq|].
      intros k'. rewrite lookup_insert. case_decide; [lia|].
      pose proof (last_event_spec (events db)) as Hspec.
      rewrite Hlast in Hspec. apply Hspec. }
    rewrite (undo_last_applied int_of_str ts _ eid ev' _ Hlast'
               (undo_inverse_delete int_of_str ev' ts _ Hact)).
    done.
Qed.

Lemma undo_delete_frame_witness :
  ∃ t', tasks (undo_last no_int_of_str "2025-06-03T08:00:00Z"
                 db_deleted_retitled).1 !! 1 = Some t'
        ∧ deleted t' = 0 ∧ title t' = "buy oat milk" ∧ due_date t' = None.
Proof.
  destruct (undo_delete_frame no_int_of_str "2025-06-03T08:00:00Z"
              db_deleted_retitled
              2 (Event "delete" (Some 1)
                   (<["title" := JStr "buy milk"]>
                      (<["was_done" := JInt 0]>
                         (<["due_date" := JStr "2025-06-14"]> ∅)))
                   "2025-06-01T10:00:00Z"))
    as (_ & Hrow & _); [vm_compute; reflexivity|reflexivity|].
  destruct (Hrow 1 (Task "buy oat milk" None 0 1
                      "2025-06-01T08:00:00Z" "2025-06-01T11:00:00Z"))
    as (t' & Ht' & Hdel & _ & Htitle & Hdue & _);
    [reflexivity|vm_compute; reflexivity|].
  exists t'. done.
Defined.

(** ** Handlers that go through *)

Lemma add_task_ok form_title form_due ts db :
  Py.strip (Py.or_empty form_title) ≠ "" →
  let ti := Py.strip (Py.or_empty form_title) in
  let du := Py.or_none (Py.strip (Py.or_empty form_due)) in
  let tid := next_rowid (tasks_seq db) (tasks db) in
  let eid := next_rowid (events_seq db) (events db) in
  add_task form_title form_due ts db
  = (MkDB (<[tid := Task ti du 0 0 ts ts]> (tasks db))
          (<[eid := Event "create" (Some tid)
                      (<["title" := JStr ti]>
                         (<["due_date" := jstr_opt du]> ∅)) ts]> (events db))
          tid eid,
     Redirect None (Index None)).
Proof.
  intros H%String.eqb_neq. unfold add_task. rewrite H. reflexivity.
Qed.

Lemma edit_task_ok tid form_title form_due ts db t :
  Py.strip (Py.or_empty form_title) ≠ "" →
  tasks db !! tid = Some t →
  let ti := Py.strip (Py.or_empty form_title) in
  let du := Py.or_none (Py.strip (Py.or_empty form_due)) in
  let eid := next_rowid (events_seq db) (events db) in
  edit_task tid form_title form_due ts db
  = (MkDB (<[tid := set_title_due ti du ts t]> (tasks db))
          (<[eid := Event "edit" (Some tid)
                      (<["before_title" := JStr (title t)]>
                         (<["after_title" := JStr ti]>
                            (<["before_due" := jstr_opt (due_date t)]>
                               (<["after_due" := jstr_opt du]> ∅)))) ts]>
             (events db))
          (tasks_seq db) eid,
     Redirect None (Index None)).
Proof.
  intros H%String.eqb_neq Ht. unfold edit_task, fetch_task.
  rewrite H, Ht. unfold set_tasks, log_event.
  by erewrite update_where_id_found.
Qed.

Lemma toggle_task_ok tid ts db t :
  tasks db !! tid = Some t →
  deleted t ≠ 1 →
  let after := if done t =? 1 then 0 else 1 in
  let eid := next_rowid (events_seq db) (events db) in
  toggle_task tid ts db
  = (MkDB (<[tid := set_done after ts t]> (tasks db))
          (<[eid := Event "toggle" (Some tid)
                      (<["before_done" := JInt (done t)]>
                         (<["after_done" := JInt after]> ∅)) ts]>
             (events db))
          (tasks_seq db) eid,
     Redirect None (Index None)).
Proof.
  intros Ht Hdel%Z.eqb_neq. unfold toggle_task, fetch_task.
  rewrite Ht, Hdel. unfold set_tasks, log_event.
  by erewrite update_where_id_found.
Qed.

Lemma delete_task_ok tid ts db t :
  tasks db !! tid = Some t →
  deleted t ≠ 1 →
  let eid := next_rowid (events_seq db) (events db) in
  delete_task tid ts db
  = (MkDB (<[tid := set_deleted 1 ts t]> (tasks db))
          (<[eid := Event "delete" (Some tid)
                      (<["title" := JStr (title t)]>
                         (<["was_done" := JInt (done t)]>
                            (<["due_date" := jstr_opt (due_date t)]> ∅)))
                      ts]>
             (events db))
          (tasks_seq db) eid,
     Redirect None (Index None)).
Proof.
  intros Ht Hdel%Z.eqb_neq. unfold delete_task, fetch_task.
  rewrite Ht, Hdel. unfold set_tasks, log_event.
  by erewrite update_where_id_found.
Qed.

(** Undoing the event that was logged last gives the log back as it was
    before that event. *)
Lemma undo_last_logged int_of_str ts T E s q q' ev m :
  undo_inverse int_of_str ev ts T = Applied m →
  undo_last int_of_str ts (MkDB T (<[next_rowid q E := ev]> E) s q')
  = (MkDB m E s q', Redirect (Some (UndidLast, flash_success)) (Index None)).
Proof.
  intros Hinv.
  erewrite undo_last_applied;
    [|apply last_event_insert_next|exact Hinv]. simpl.
  by rewrite delete_insert_id by apply next_rowid_fresh.
Qed.

Lemma bindable_jstr_opt x : bindable (Some (jstr_opt x)) = true.
Proof. by destruct x. Qed.

Lemma bindable_before_due (bt at_ ad : jval) bd :
  bindable ((<["before_title" := bt]>
               (<["after_title" := at_]>
                  (<["before_due" := jstr_opt bd]>
                     (<["after_due" := ad]> (∅ : gmap string jval)))))
              !! "before_due") = true.
Proof.
  rewrite lookup_insert_ne by done. rewrite lookup_insert_ne by done.
  rewrite lookup_insert_eq. apply bindable_jstr_opt.
Qed.

Lemma sql_text_jstr_opt x : sql_text (Some (jstr_opt x)) = x.
Proof. by destruct x. Qed.

(** C2.  From any database, a create and an edit with titles that are not
    blank, then a toggle and a delete of the created task, all go through
    and are logged; four undos after them leave no row under the created
    task's id, the task table as it was before the create, and the event
    log holding exactly the events it held before the create. *)
Theorem undo_chain_restores int_of_str db0 ft fd et ed
    ts1 ts2 ts3 ts4 ts5 ts6 ts7 ts8 :
  Py.strip (Py.or_empty ft) ≠ "" →
  Py.strip (Py.or_empty et) ≠ "" →
  let tid := next_rowid (tasks_seq db0) (tasks db0) in
  let db1 := (add_task ft fd ts1 db0).1 in
  let db2 := (edit_task tid et ed ts2 db1).1 in
  let db3 := (toggle_task tid ts3 db2).1 in
  let db4 := (delete_task tid ts4 db3).1 in
  let undo ts db := (undo_last int_of_str ts db).1 in
  let db8 := undo ts8 (undo ts7 (undo ts6 (undo ts5 db4))) in
  tasks db4 !! tid
  = Some (Task (Py.strip (Py.or_empty et))
               (Py.or_none (Py.strip (Py.or_empty ed))) 1 1 ts1 ts4)
  ∧ (∃ eid pl, last_event (events db4)
               = Some (eid, Event "delete" (Some tid) pl ts4))
  ∧ tasks db8 !! tid = None
  ∧ tasks db8 = tasks db0
  ∧ events db8 = events db0.
Proof.
  intros Hft Het tid db1 db2 db3 db4 undo db8.
  destruct db0 as [T0 E0 s0 q0]. cbn [tasks tasks_seq] in tid.
  assert (T0 !! tid = None) as Hfresh by apply next_rowid_fresh.
  subst db8 undo db4 db3 db2 db1.
  rewrite add_task_ok by done. cbn [fst snd tasks events tasks_seq events_seq].
  fold tid.
  erewrite edit_task_ok; [|done|apply lookup_insert_eq].
  cbn [fst snd tasks events tasks_seq events_seq].
  erewrite toggle_task_ok; [|apply lookup_insert_eq|done].
  cbn [fst snd tasks events tasks_seq events_seq].
  erewrite delete_task_ok; [|apply lookup_insert_eq|done].
  cbn [fst snd tasks events tasks_seq events_seq].
  rewrite !insert_insert_eq.
  split; [by rewrite lookup_insert_eq|].
  split; [eexists _, _; apply last_event_insert_next|].
  erewrite undo_last_logged; [|by apply undo_inverse_delete].
  cbn [fst snd tasks events tasks_seq events_seq task_id update_where_id].
  rewrite alter_insert_eq.
  erewrite undo_last_logged;
    [|eapply undo_inverse_toggle; [done|apply lookup_insert_eq|done|done]].
  cbn [fst snd tasks events tasks_seq events_seq task_id update_where_id].
  rewrite alter_insert_eq.
  erewrite undo_last_logged;
    [|eapply undo_inverse_edit;
       [done|apply lookup_insert_eq|apply bindable_before_due]].
  cbn [fst snd tasks events tasks_seq events_seq task_id update_where_id].
  rewrite alter_insert_eq.
  erewrite undo_last_logged; [|by apply undo_inverse_create].
  cbn [fst snd tasks events tasks_seq events_seq task_id delete_where_id].
  rewrite delete_insert_id by done. done.
Qed.

Lemma undo_chain_restores_witness :
  let undo ts db := (undo_last no_int_of_str ts db).1 in
  let db4 :=
    (delete_task 1 "2025-06-01T11:00:00Z"
       (toggle_task 1 "2025-06-01T10:00:00Z"
          (edit_task 1 (Some "buy oat milk") (Some "2025-07-01")
             "2025-06-01T09:00:00Z" db_created).1).1).1 in
  let db8 :=
    undo "2025-06-02T04:00:00Z" (undo "2025-06-02T03:00:00Z"
      (undo "2025-06-02T02:00:00Z" (undo "2025-06-02T01:00:00Z" db4))) in
  tasks db8 !! 1 = None ∧ tasks db8 = ∅ ∧ events db8 = ∅.
Proof.
  destruct (undo_chain_restores no_int_of_str empty_db
              (Some "buy milk") (Some "2025-06-14")
              (Some "buy oat milk") (Some "2025-07-01")
              "2025-06-01T08:00:00Z" "2025-06-01T09:00:00Z"
              "2025-06-01T10:00:00Z" "2025-06-01T11:00:00Z"
              "2025-06-02T01:00:00Z" "2025-06-02T02:00:00Z"
              "2025-06-02T03:00:00Z" "2025-06-02T04:00:00Z")
    as (_ & _ & Hrow & HT & HE); [by vm_compute|by vm_compute|].
  split; [exact Hrow|]. split; [exact HT|exact HE].
Defined.


(** ** Comparisons are total orders *)

Lemma ascii_compare_eq a b : Ascii.compare a b = Eq ↔ a = b.
Proof.
  split; [apply Ascii.compare_eq_iff|]. intros ->.
  unfold Ascii.compare. apply N.compare_refl.
Qed.

Lemma ascii_compare_lt_trans a b c :
  Ascii.compare a b = Lt → Ascii.compare b c = Lt → Ascii.compare a c = Lt.
Proof. unfold Ascii.compare. rewrite !N.compare_lt_iff. lia. Qed.

Lemma string_compare_refl s : String.compare s s = Eq.
Proof.
  induction s as [|a s IH]; simpl; [done|].
  by rewrite (proj2 (ascii_compare_eq a a) eq_refl).
Qed.

Lemma string_compare_lt_trans x y z :
  String.compare x y = Lt → String.compare y z = Lt →
  String.compare x z = Lt.
Proof.
  revert y z. induction x as [|a x IH]; intros [|b y] [|c z]; simpl;
    try done.
  destruct (Ascii.compare a b) eqn:Hab; [| |done].
  - apply ascii_compare_eq in Hab as ->.
    destruct (Ascii.compare b c); [apply IH|done|done].
  - intros _. destruct (Ascii.compare b c) eqn:Hbc; [| |done].
    + apply ascii_compare_eq in Hbc as ->. by rewrite Hab.
    + by rewrite (ascii_compare_lt_trans a b c).
Qed.

Global Instance cmp_Z_order : CmpOrder Z.
Proof.
  split; unfold cmp, cmp_Z.
  - apply Z.compare_eq_iff.
  - intros x y. apply Z.compare_antisym.
  - intros x y z. rewrite !Z.compare_lt_iff. lia.
Qed.

Global Instance cmp_text_order : CmpOrder string.
Proof.
  split; unfold cmp, cmp_text.
  - intros x y. split; [apply String.compare_eq_iff|].
    intros ->. apply string_compare_refl.
  - apply String.compare_antisym.
  - apply string_compare_lt_trans.
Qed.

Section Orders.
Context `{CmpOrder A}.
Implicit Types x y z : A.

Lemma cmp_refl x : cmp x x = Eq.
Proof. by apply cmp_eq_iff. Qed.

Lemma cmp_gt_lt x y : cmp x y = Gt ↔ cmp y x = Lt.
Proof. rewrite (cmp_antisym x y). destruct (cmp y x); simpl; split; congruence. Qed.

Global Instance cmp_le_total : Total (cmp_le (A:=A)).
Proof.
  intros x y. unfold cmp_le. rewrite (cmp_antisym y x).
  destruct (cmp x y); simpl; [left|left|right]; congruence.
Qed.

Global Instance cmp_le_trans : Transitive (cmp_le (A:=A)).
Proof.
  intros x y z. unfold cmp_le. intros Hxy Hyz Hxz.
  destruct (cmp x y) eqn:Exy; [| |done].
  - apply cmp_eq_iff in Exy as ->. done.
  - destruct (cmp y z) eqn:Eyz; [| |done].
    + apply cmp_eq_iff in Eyz as ->. congruence.
    + pose proof (cmp_lt_trans _ _ _ Exy Eyz). congruence.
Qed.

Global Instance cmp_nullable_order : CmpOrder (option A).
Proof.
  split.
  - intros [x|] [y|]; unfold cmp, cmp_nullable; try done.
    rewrite cmp_eq_iff. split; congruence.
  - intros [x|] [y|]; unfold cmp, cmp_nullable; try done. apply cmp_antisym.
  - intros [x|] [y|] [z|]; unfold cmp, cmp_nullable; try done.
    apply cmp_lt_trans.
Qed.

Global Instance cmp_desc_order : CmpOrder (desc A).
Proof.
  split.
  - intros [x] [y]. unfold cmp, cmp_desc. simpl.
    rewrite cmp_eq_iff. split; congruence.
  - intros [x] [y]. unfold cmp, cmp_desc. simpl. apply cmp_antisym.
  - intros [x] [y] [z]. unfold cmp, cmp_desc. simpl. intros Hxy Hyz.
    by apply (cmp_lt_trans z y x).
Qed.

End Orders.

Lemma cmp_pair_eq `{Cmp A, Cmp B} (a1 a2 : A) (b1 b2 : B) :
  cmp (a1, b1) (a2, b2)
  = match cmp a1 a2 with Eq => cmp b1 b2 | c => c end.
Proof. reflexivity. Qed.

Global Instance cmp_pair_order `{CmpOrder A, CmpOrder B} : CmpOrder (A * B).
Proof.
  split.
  - intros [a1 b1] [a2 b2]. rewrite cmp_pair_eq.
    destruct (cmp a1 a2) eqn:Ha.
    + apply cmp_eq_iff in Ha as ->. rewrite cmp_eq_iff.
      split; congruence.
    + split; [done|]. intros [= -> ->]. by rewrite cmp_refl in Ha.
    + split; [done|]. intros [= -> ->]. by rewrite cmp_refl in Ha.
  - intros [a1 b1] [a2 b2]. rewrite !cmp_pair_eq.
    rewrite (cmp_antisym a1 a2).
    destruct (cmp a2 a1); simpl; [apply cmp_antisym|done|done].
  - intros [a1 b1] [a2 b2] [a3 b3]. rewrite !cmp_pair_eq.
    destruct (cmp a1 a2) eqn:H12; [| |done].
    + apply cmp_eq_iff in H12 as ->.
      destruct (cmp a2 a3); [apply cmp_lt_trans|done|done].
    + intros _. destruct (cmp a2 a3) eqn:H23; [| |done].
      * apply cmp_eq_iff in H23 as ->. by rewrite H12.
      * by rewrite (cmp_lt_trans a1 a2 a3).
Qed.

Global Instance by_due_total : Total by_due.
Proof. intros r1 r2. unfold by_due. apply total, _. Qed.

Global Instance by_due_trans : Transitive by_due.
Proof. intros r1 r2 r3. unfold by_due. apply transitivity. Qed.

Global Instance by_recent_total : Total by_recent.
Proof. intros r1 r2. unfold by_recent. apply total, _. Qed.

Global Instance by_recent_trans : Transitive by_recent.
Proof. intros r1 r2 r3. unfold by_recent. apply transitivity. Qed.

(** ** The listing *)

Lemma StronglySorted_lookup {A} (R : relation A) (l : list A) i j a b :
  StronglySorted R l → (i < j)%nat →
  l !! i = Some a → l !! j = Some b → R a b.
Proof.
  intros Hl. revert i j. induction Hl as [|x l Hl IH Hx]; intros i j Hij.
  - by rewrite lookup_nil.
  - destruct j as [|j]; [lia|]. destruct i as [|i]; simpl.
    + intros [= ->] Hb. rewrite Forall_forall in Hx.
      apply Hx. by eapply list_elem_of_lookup_2.
    + apply IH. lia.
Qed.

Lemma select_tasks_elem show sort m r :
  r ∈ select_tasks show sort m
  ↔ m !! r.1 = Some r.2 ∧ where_clause show r.2 = true.
Proof.
  unfold select_tasks.
  destruct (String.eqb sort "due"); rewrite merge_sort_Permutation;
    rewrite list_elem_of_In, filter_In, <- list_elem_of_In;
    by rewrite elem_of_map_to_list'.
Qed.

Lemma select_tasks_due_sorted show m :
  StronglySorted by_due (select_tasks show "due" m).
Proof. unfold select_tasks. simpl. apply StronglySorted_merge_sort; apply _. Qed.

Lemma select_tasks_recent_sorted show sort m :
  sort ≠ "due" → StronglySorted by_recent (select_tasks show sort m).
Proof.
  intros Hs%String.eqb_neq. unfold select_tasks. rewrite Hs.
  apply StronglySorted_merge_sort; apply _.
Qed.

Lemma where_clause_active show t :
  show ≠ "all" → show ≠ "completed" → show ≠ "deleted" →
  where_clause show t = (deleted t =? 0) && (done t =? 0).
Proof.
  intros H1%String.eqb_neq H2%String.eqb_neq H3%String.eqb_neq.
  unfold where_clause. by rewrite H1, H2, H3.
Qed.

Lemma select_tasks_default_show show sort m :
  show ≠ "all" → show ≠ "completed" → show ≠ "deleted" →
  select_tasks show sort m = select_tasks "active" sort m.
Proof.
  intros H1 H2 H3. unfold select_tasks.
  assert (List.filter (λ r : Z * task, where_clause show r.2) (map_to_list m)
          = List.filter (λ r : Z * task, where_clause "active" r.2)
              (map_to_list m)) as ->; [|done].
  apply filter_ext. intros r. by rewrite !where_clause_active.
Qed.

Lemma select_tasks_default_sort show sort m :
  sort ≠ "due" → select_tasks show sort m = select_tasks show "recent" m.
Proof. intros Hs%String.eqb_neq. unfold select_tasks. by rewrite Hs. Qed.

Lemma page_tasks_index arg_show arg_sort today db :
  page_tasks (index arg_show arg_sort today db).2
  = decorate today <$> select_tasks (default "active" arg_show)
                         (default "recent" arg_sort) (tasks db).
Proof. reflexivity. Qed.

Lemma page_tasks_elem arg_show arg_sort today db x :
  x ∈ page_tasks (index arg_show arg_sort today db).2
  ↔ tasks db !! row_id x = Some (row x)
    ∧ where_clause (default "active" arg_show) (row x) = true
    ∧ row_badge x = badge_of today (row x).
Proof.
  rewrite page_tasks_index, list_elem_of_fmap. split.
  - intros ([i t] & -> & Hr%select_tasks_elem). simpl in *. tauto.
  - intros (Hrow & Hw & Hb). exists (row_id x, row x).
    rewrite select_tasks_elem. destruct x; simpl in *. by subst.
Qed.

Lemma page_tasks_lookup arg_show arg_sort today db i x :
  page_tasks (index arg_show arg_sort today db).2 !! i = Some x →
  select_tasks (default "active" arg_show) (default "recent" arg_sort)
    (tasks db) !! i = Some (row_id x, row x).
Proof.
  rewrite page_tasks_index, list_lookup_fmap.
  destruct (select_tasks _ _ _ !! i) as [[k t]|]; [|done].
  by intros [= <-].
Qed.

Lemma dated_due_missing t : dated t = true ↔ due_missing t = 0.
Proof.
  unfold dated, due_missing, Py.truthy.
  destruct (due_date t) as [d|]; [|done].
  by destruct (String.eqb d "").
Qed.

Lemma by_due_inv r1 r2 :
  by_due r1 r2 →
  (dated r2.2 = true → dated r1.2 = true)
  ∧ (dated r1.2 = true → dated r2.2 = true →
       ∃ d1 d2, due_date r1.2 = Some d1 ∧ due_date r2.2 = Some d2
                ∧ String.leb d1 d2 = true)
  ∧ (due_date r1.2 = due_date r2.2 →
       String.leb (updated_at r2.2) (updated_at r1.2) = true)
  ∧ ¬ (due_date r1.2 = Some "" ∧ due_date r2.2 = None).
Proof.
  destruct r1 as [i1 t1], r2 as [i2 t2]. unfold by_due, cmp_le, due_key.
  simpl. rewrite !cmp_pair_eq. intros Hle.
  split; [|split; [|split]].
  - rewrite !dated_due_missing. intros E2. rewrite E2 in Hle.
    unfold due_missing in *. destruct (due_date t1) as [d|]; [|done].
    by destruct (String.eqb d "").
  - rewrite !dated_due_missing. intros E1 E2. rewrite E1, E2 in Hle.
    unfold due_missing in E1, E2.
    destruct (due_date t1) as [d1|]; [|done].
    destruct (due_date t2) as [d2|]; [|done].
    exists d1, d2. split; [done|]. split; [done|].
    unfold String.leb. change (cmp 0 0) with Eq in Hle.
    change (cmp (Some d1) (Some d2)) with (String.compare d1 d2) in Hle.
    destruct (String.compare d1 d2); done.
  - intros E. unfold due_missing in Hle. rewrite E in Hle.
    rewrite !cmp_refl in Hle. unfold String.leb.
    change (cmp (Desc (updated_at t1)) (Desc (updated_at t2)))
      with (String.compare (updated_at t2) (updated_at t1)) in Hle.
    destruct (String.compare _ _); done.
  - intros [E1 E2]. unfold due_missing in Hle. rewrite E1, E2 in Hle.
    by apply Hle.
Qed.

Lemma by_recent_inv r1 r2 :
  by_recent r1 r2 → String.leb (updated_at r2.2) (updated_at r1.2) = true.
Proof.
  unfold by_recent, cmp_le, recent_key, String.leb.
  change (cmp (Desc (updated_at r1.2)) (Desc (updated_at r2.2)))
    with (String.compare (updated_at r2.2) (updated_at r1.2)).
  destruct (String.compare _ _); done.
Qed.

(** X26.  What holds of the task list for every table.  A listing with
    [show=active] holds only stored rows whose [deleted] and [done] are
    both 0.  In a listing with [sort=due], wherever one row comes before
    another: the later row is dated only if the earlier one is; two dated
    rows are in ascending order of [due_date]; and two rows with the same
    stored [due_date] are in descending order of [updated_at].  None of
    this depends on how the [updated_at] of rows with different dates
    compare. *)
Theorem listing_active_and_due_order today db :
  (∀ sort x, x ∈ page_tasks (index (Some "active") sort today db).2 →
     deleted (row x) = 0 ∧ done (row x) = 0
     ∧ tasks db !! row_id x = Some (row x))
  ∧ (∀ show i j a b,
       let l := page_tasks (index show (Some "due") today db).2 in
       (i < j)%nat → l !! i = Some a → l !! j = Some b →
       (dated (row b) = true → dated (row a) = true)
       ∧ (dated (row a) = true → dated (row b) = true →
            ∃ d1 d2, due_date (row a) = Some d1
                     ∧ due_date (row b) = Some d2
                     ∧ String.leb d1 d2 = true)
       ∧ (due_date (row a) = due_date (row b) →
            String.leb (updated_at (row b)) (updated_at (row a)) = true)).
Proof.
  split.
  - intros sort x (Hrow & Hw & _)%page_tasks_elem. simpl in Hw.
    apply andb_true_iff in Hw as [Hdel%Z.eqb_eq Hdone%Z.eqb_eq]. done.
  - intros show i j a b l Hij Ha%page_tasks_lookup Hb%page_tasks_lookup.
    destruct (by_due_inv (row_id a, row a) (row_id b, row b))
      as (H1 & H2 & H3 & _); [|done].
    eapply StronglySorted_lookup;
      [apply select_tasks_due_sorted|exact Hij|exact Ha|exact Hb].
Qed.

(** C3 (at the failing input).  In [db_null_empty] the two tasks are open
    and neither has a due date: task 1 stores [NULL], task 2 the empty
    string, and task 2 was updated later.  The listing with [sort=due]
    (the comment on its [ORDER BY] reads: due date first; nulls last; then
    updated_at) shows task 1 before task 2: the two undated tasks are not
    in descending order of [updated_at], because the second sort key,
    [due_date ASC], tells [NULL] from the empty string before [updated_at]
    is looked at. *)
Theorem due_sort_undated_not_by_updated_at today show :
  show = None ∨ show = Some "active" ∨ show = Some "all" →
  let l := page_tasks (index show (Some "due") today db_null_empty).2 in
  (∃ a b, l = [a; b]
          ∧ row_id a = 1 ∧ row_id b = 2
          ∧ due_date (row a) = None ∧ due_date (row b) = Some ""
          ∧ dated (row a) = false ∧ dated (row b) = false
          ∧ String.ltb (updated_at (row a)) (updated_at (row b)) = true
          ∧ String.leb (updated_at (row b)) (updated_at (row a)) = false)
  ∧ by_due (1, Task "older" None 0 0
                 "2025-05-01T08:00:00Z" "2025-05-01T08:00:00Z")
           (2, Task "newer" (Some "") 0 0
                 "2025-05-02T08:00:00Z" "2025-05-02T08:00:00Z")
  ∧ ¬ by_due (2, Task "newer" (Some "") 0 0
                   "2025-05-02T08:00:00Z" "2025-05-02T08:00:00Z")
             (1, Task "older" None 0 0
                   "2025-05-01T08:00:00Z" "2025-05-01T08:00:00Z").
Proof.
  intros Hshow l. subst l. rewrite page_tasks_index.
  assert (select_tasks (default "active" show) (default "recent" (Some "due"))
            (tasks db_null_empty)
          = [(1, Task "older" None 0 0
                   "2025-05-01T08:00:00Z" "2025-05-01T08:00:00Z");
             (2, Task "newer" (Some "") 0 0
                   "2025-05-02T08:00:00Z" "2025-05-02T08:00:00Z")]) as ->.
  { by destruct Hshow as [-> | [-> | ->]]; vm_compute. }
  split; [|split].
  - do 2 eexists. split; [reflexivity|]. by vm_compute.
  - by vm_compute.
  - intros H. by vm_compute in H.
Qed.

Lemma due_sort_undated_not_by_updated_at_witness :
  row_id <$> page_tasks (index None (Some "due") "2025-06-15"
                           db_null_empty).2 = [1; 2].
Proof.
  destruct (due_sort_undated_not_by_updated_at "2025-06-15" None)
    as ((a & b & -> & Ha & Hb & _) & _); [by left|].
  simpl. by rewrite Ha, Hb.
Defined.

Lemma listing_active_and_due_order_witness :
  (row_id <$> page_tasks (index None (Some "due") "2025-06-15" db_three).2)
  = [3; 1; 2]
  ∧ String.leb "2025-05-03T08:00:00Z" "2025-05-09T08:00:00Z" = true
  ∧ String.leb "2025-01-01" "2025-06-01" = true.
Proof.
  split; [by vm_compute|].
  pose (a := Shown 3 (Task "taxes" (Some "2025-01-01") 0 0
                        "2025-05-03T08:00:00Z" "2025-05-03T08:00:00Z")
                   (Some Overdue)).
  pose (b := Shown 1 (Task "report" (Some "2025-06-01") 0 0
                        "2025-05-01T08:00:00Z" "2025-05-09T08:00:00Z")
                   (Some Overdue)).
  destruct (proj2 (listing_active_and_due_order "2025-06-15" db_three)
              None 0%nat 1%nat a b)
    as (_ & Hdue & _); [lia|by vm_compute|by vm_compute|].
  destruct Hdue as (d1 & d2 & [= <-] & [= <-] & Hle);
    [reflexivity|reflexivity|].
  split; [reflexivity|exact Hle].
Defined.

(** ** Badges *)

Lemma string_ltb_compare a b : String.ltb a b = true ↔ String.compare a b = Lt.
Proof. unfold String.ltb. destruct (String.compare a b); split; congruence. Qed.

Lemma string_trichotomy a b :
  String.ltb a b = true ∨ a = b ∨ String.ltb b a = true.
Proof.
  rewrite !string_ltb_compare, (String.compare_antisym b a).
  destruct (String.compare a b) eqn:E; simpl; [|by left|by right; right].
  right. left. by apply String.compare_eq_iff.
Qed.

(** C4.  For a row with [deleted] 0, [done] 0 and a non-empty [due_date]
    [d], exactly one of [d < today], [d = today], [today < d] holds and the
    badge is Overdue, DueToday, Scheduled accordingly; a row that is
    deleted, or done, or has no due date ([NULL] or the empty string) has no
    badge.  [index] leaves the database as it was, and every listed row is
    the stored row with the badge computed from the day of the request. *)
Theorem badge_classification today t :
  (deleted t = 0 → done t = 0 → ∀ d, due_date t = Some d → d ≠ "" →
     (String.ltb d today = true ∨ d = today ∨ String.ltb today d = true)
     ∧ (String.ltb d today = true → badge_of today t = Some Overdue)
     ∧ (d = today → badge_of today t = Some DueToday)
     ∧ (String.ltb today d = true → badge_of today t = Some Scheduled))
  ∧ (deleted t ≠ 0 ∨ done t ≠ 0 ∨ due_date t = None ∨ due_date t = Some "" →
       badge_of today t = None)
  ∧ (∀ show sort db,
       (index show sort today db).1 = db
       ∧ ∀ x, x ∈ page_tasks (index show sort today db).2 →
              tasks db !! row_id x = Some (row x)
              ∧ row_badge x = badge_of today (row x)).
Proof.
  split; [|split].
  - intros Hdel Hdone d Hd Hne%String.eqb_neq.
    split; [apply string_trichotomy|].
    unfold badge_of, dated, Py.truthy. rewrite Hdel, Hdone, Hd, Hne. simpl.
    split; [|split].
    + intros ->. done.
    + intros ->.
      assert (String.ltb today today = false) as ->.
      { unfold String.ltb. by rewrite string_compare_refl. }
      by rewrite String.eqb_refl.
    + intros Hlt%string_ltb_compare.
      assert (String.ltb d today = false) as ->.
      { unfold String.ltb. rewrite String.compare_antisym, Hlt. done. }
      assert (String.eqb d today = false) as ->; [|done].
      apply String.eqb_neq. intros ->.
      by rewrite string_compare_refl in Hlt.
  - unfold badge_of, dated, Py.truthy.
    intros [Hdel%Z.eqb_neq|[Hdone%Z.eqb_neq|[->| ->]]].
    + by rewrite Hdel.
    + rewrite Hdone. by rewrite andb_false_r.
    + by rewrite andb_false_r.
    + by rewrite andb_false_r.
  - intros show sort db. split; [done|].
    intros x (Hrow & _ & Hb)%page_tasks_elem. done.
Qed.

Lemma badge_classification_witness :
  badge_of "2025-06-15" (Task "a" (Some "2025-06-14") 0 0 "" "")
  = Some Overdue
  ∧ badge_of "2025-06-15" (Task "b" (Some "2025-06-15") 0 0 "" "")
    = Some DueToday
  ∧ badge_of "2025-06-15" (Task "c" (Some "2025-06-16") 0 0 "" "")
    = Some Scheduled
  ∧ badge_of "2025-06-15" (Task "d" (Some "2025-06-01") 1 0 "" "") = None.
Proof.
  split; [|split; [|split]].
  - eapply (proj1 (badge_classification _ _)); [done|done|done|done|done].
  - eapply (proj1 (badge_classification _ _)); [done|done|done|done|done].
  - eapply (proj1 (badge_classification _ _)); [done|done|done|done|done].
  - apply (proj1 (proj2 (badge_classification _ _))). right. left. done.
Defined.

(** C10.  A [show] parameter that is absent or is none of "all",
    "completed", "deleted" lists what [show=active] lists, in the same
    order: the stored rows whose [deleted] and [done] are 0.  A [sort]
    parameter that is absent or is not "due" lists what [sort=recent]
    lists, in descending order of [updated_at]. *)
Theorem index_parameter_defaults show sort today db :
  (show ≠ Some "all" → show ≠ Some "completed" → show ≠ Some "deleted" →
     page_tasks (index show sort today db).2
     = page_tasks (index (Some "active") sort today db).2
     ∧ ∀ x, x ∈ page_tasks (index show sort today db).2
            ↔ tasks db !! row_id x = Some (row x)
              ∧ deleted (row x) = 0 ∧ done (row x) = 0
              ∧ row_badge x = badge_of today (row x))
  ∧ (sort ≠ Some "due" →
       page_tasks (index show sort today db).2
       = page_tasks (index show (Some "recent") today db).2
       ∧ ∀ i j a b,
           (i < j)%nat →
           page_tasks (index show sort today db).2 !! i = Some a →
           page_tasks (index show sort today db).2 !! j = Some b →
           String.leb (updated_at (row b)) (updated_at (row a)) = true).
Proof.
  split.
  - intros H1 H2 H3.
    assert (default "active" show ≠ "all"
            ∧ default "active" show ≠ "completed"
            ∧ default "active" show ≠ "deleted") as (G1 & G2 & G3).
    { destruct show as [s|]; simpl; [|done].
      repeat split; congruence. }
    split.
    + rewrite !page_tasks_index. simpl.
      by rewrite (select_tasks_default_show (default "active" show)).
    + intros x. rewrite page_tasks_elem, where_clause_active by done.
      rewrite andb_true_iff, !Z.eqb_eq. tauto.
  - intros Hs.
    assert (default "recent" sort ≠ "due") as G.
    { destruct sort as [s|]; simpl; [congruence|done]. }
    split.
    + rewrite !page_tasks_index. simpl.
      by rewrite (select_tasks_default_sort _ (default "recent" sort)).
    + intros i j a b Hij Ha%page_tasks_lookup Hb%page_tasks_lookup.
      apply (by_recent_inv (row_id a, row a) (row_id b, row b)).
      eapply StronglySorted_lookup;
        [by apply select_tasks_recent_sorted|exact Hij|exact Ha|exact Hb].
Qed.

Lemma index_parameter_defaults_witness :
  page_tasks (index (Some "archived") (Some "oldest") "2025-06-15"
                db_three).2
  = page_tasks (index (Some "active") (Some "recent") "2025-06-15"
                  db_three).2.
Proof.
  destruct (index_parameter_defaults (Some "archived") (Some "oldest")
              "2025-06-15" db_three) as [Hshow Hsort].
  destruct Hshow as [-> _]; [done|done|done|].
  destruct (index_parameter_defaults (Some "active") (Some "oldest")
              "2025-06-15" db_three) as [_ Hsort'].
  destruct Hsort' as [-> _]; [done|]. reflexivity.
Defined.

(** ** ISO dates compare as calendar dates *)

Lemma lex_compare_base (b q1 r1 q2 r2 : N) :
  (r1 < b)%N → (r2 < b)%N →
  match (q1 ?= q2)%N with Eq => (r1 ?= r2)%N | c => c end
  = (q1 * b + r1 ?= q2 * b + r2)%N.
Proof.
  intros H1 H2. symmetry.
  destruct (N.compare_spec q1 q2) as [->|Hq|Hq].
  - destruct (N.compare_spec r1 r2) as [->|Hr|Hr].
    + apply N.compare_refl.
    + apply N.compare_lt_iff. lia.
    + apply N.compare_gt_iff. lia.
  - apply N.compare_lt_iff. nia.
  - apply N.compare_gt_iff. nia.
Qed.

Lemma digit_compare (a b : N) :
  (a < 10)%N → (b < 10)%N → Ascii.compare (digit a) (digit b) = (a ?= b)%N.
Proof.
  intros Ha Hb. unfold Ascii.compare, digit.
  rewrite !N_ascii_embedding by lia.
  destruct (N.compare_spec a b) as [->|Hab|Hab];
    [apply N.compare_refl|apply N.compare_lt_iff; lia
    |apply N.compare_gt_iff; lia].
Qed.

Lemma div_mod_compare (b n1 n2 : N) :
  (0 < b)%N →
  match (n1 / b ?= n2 / b)%N with
  | Eq => (n1 mod b ?= n2 mod b)%N
  | c => c
  end = (n1 ?= n2)%N.
Proof.
  intros Hb.
  rewrite (lex_compare_base b) by (apply N.mod_lt; lia).
  rewrite !(N.mul_comm _ b), <- !N.div_mod by lia. done.
Qed.

Lemma two_digits_compare (n1 n2 : N) (s1 s2 : string) :
  (n1 < 100)%N → (n2 < 100)%N →
  String.compare (two_digits n1 s1) (two_digits n2 s2)
  = match (n1 ?= n2)%N with Eq => String.compare s1 s2 | c => c end.
Proof.
  intros H1 H2. unfold two_digits. simpl.
  assert (n1 / 10 < 10)%N by (apply N.Div0.div_lt_upper_bound; lia).
  assert (n2 / 10 < 10)%N by (apply N.Div0.div_lt_upper_bound; lia).
  assert (n1 mod 10 < 10)%N by (apply N.mod_lt; lia).
  assert (n2 mod 10 < 10)%N by (apply N.mod_lt; lia).
  rewrite !digit_compare by done.
  rewrite <- (div_mod_compare 10 n1 n2) by lia.
  destruct (n1 / 10 ?= n2 / 10)%N; [|done|done].
  destruct (n1 mod 10 ?= n2 mod 10)%N; done.
Qed.

Lemma four_digits_compare (n1 n2 : N) (s1 s2 : string) :
  (n1 < 10000)%N → (n2 < 10000)%N →
  String.compare (four_digits n1 s1) (four_digits n2 s2)
  = match (n1 ?= n2)%N with Eq => String.compare s1 s2 | c => c end.
Proof.
  intros H1 H2. unfold four_digits.
  assert (n1 / 100 < 100)%N by (apply N.Div0.div_lt_upper_bound; lia).
  assert (n2 / 100 < 100)%N by (apply N.Div0.div_lt_upper_bound; lia).
  assert (n1 mod 100 < 100)%N by (apply N.mod_lt; lia).
  assert (n2 mod 100 < 100)%N by (apply N.mod_lt; lia).
  rewrite !two_digits_compare by done.
  rewrite <- (div_mod_compare 100 n1 n2) by lia.
  destruct (n1 / 100 ?= n2 / 100)%N; [|done|done].
  destruct (n1 mod 100 ?= n2 mod 100)%N; done.
Qed.

Lemma string_compare_cons c s1 s2 :
  String.compare (String c s1) (String c s2) = String.compare s1 s2.
Proof. simpl. by rewrite (proj2 (ascii_compare_eq c c) eq_refl). Qed.

(** The order of two ISO dates as texts is their order as dates. *)
Lemma isoformat_compare (y1 m1 d1 y2 m2 d2 : N) :
  (y1 < 10000)%N → (m1 < 100)%N → (d1 < 100)%N →
  (y2 < 10000)%N → (m2 < 100)%N → (d2 < 100)%N →
  String.compare (isoformat y1 m1 d1) (isoformat y2 m2 d2)
  = cmp (y1, (m1, d1)) (y2, (m2, d2)).
Proof.
  intros. unfold isoformat.
  rewrite four_digits_compare by done. rewrite !cmp_pair_eq.
  unfold cmp at 1 2 3, cmp_N.
  destruct (y1 ?= y2)%N; [|done|done].
  rewrite string_compare_cons, two_digits_compare by done.
  destruct (m1 ?= m2)%N; [|done|done].
  rewrite string_compare_cons, two_digits_compare by done.
  destruct (d1 ?= d2)%N; done.
Qed.

Example isoformat_2025_06_15 : isoformat 2025 6 15 = "2025-06-15".
Proof. reflexivity. Qed.

(** For an open task whose due date and the day of the request are both ISO
    dates, the badge follows the calendar. *)
Lemma badge_of_isoformat (t : task) (y m d y' m' d' : N) :
  (y < 10000)%N → (m < 100)%N → (d < 100)%N →
  (y' < 10000)%N → (m' < 100)%N → (d' < 100)%N →
  deleted t = 0 → done t = 0 → due_date t = Some (isoformat y m d) →
  badge_of (isoformat y' m' d') t
  = Some match cmp (y, (m, d)) (y', (m', d')) with
         | Lt => Overdue
         | Eq => DueToday
         | Gt => Scheduled
         end.
Proof.
  intros Hy Hm Hd Hy' Hm' Hd' Hdel Hdone Hdue.
  rewrite <- isoformat_compare by done.
  unfold badge_of, dated, Py.truthy, String.ltb.
  rewrite Hdel, Hdone, Hdue.
  change (String.eqb (isoformat y m d) "") with false. simpl negb. simpl andb.
  cbv iota.
  destruct (String.compare (isoformat y m d) (isoformat y' m' d')) eqn:E.
  - apply String.compare_eq_iff in E. rewrite E. by rewrite String.eqb_refl.
  - done.
  - assert (String.eqb (isoformat y m d) (isoformat y' m' d') = false) as ->;
      [|done].
    apply String.eqb_neq. intros E'. rewrite E' in E.
    by rewrite string_compare_refl in E.
Qed.

(** ** Trimming twice *)

Lemma chars_inj s1 s2 :
  String.list_ascii_of_string s1 = String.list_ascii_of_string s2 → s1 = s2.
Proof.
  intros H. rewrite <- (String.string_of_list_ascii_of_string s1),
    <- (String.string_of_list_ascii_of_string s2). by rewrite H.
Qed.

Lemma string_rev_involutive s : String.rev (String.rev s) = s.
Proof. apply chars_inj. by rewrite !chars_rev, reverse_involutive. Qed.

Lemma lstrip_clean s : starts_clean s → Py.lstrip s = s.
Proof. destruct s as [|c s]; simpl; [done|]. by intros ->. Qed.

Lemma lstrip_keeps_last s l c :
  String.list_ascii_of_string s = l ++ [c] → Py.isspace c = false →
  ∃ l', String.list_ascii_of_string (Py.lstrip s) = l' ++ [c].
Proof.
  revert l. induction s as [|a s IH]; intros l Hs Hc; simpl in *.
  - by destruct l.
  - destruct l as [|b l]; simpl in Hs.
    + injection Hs as -> Hs. rewrite Hc. exists []. simpl. by rewrite Hs.
    + injection Hs as -> Hs. destruct (Py.isspace b).
      * by eapply IH.
      * exists (b :: l). simpl. by rewrite Hs.
Qed.

Lemma rstrip_starts_clean s : starts_clean s → starts_clean (Py.rstrip s).
Proof.
  destruct s as [|c s]; [done|]. simpl. intros Hc.
  destruct (lstrip_keeps_last (String.rev (String c s))
              (reverse (String.list_ascii_of_string s)) c) as [l' Hl'];
    [by rewrite chars_rev; simpl; rewrite reverse_cons|done|].
  unfold Py.rstrip.
  assert (String.list_ascii_of_string
            (String.rev (Py.lstrip (String.rev (String c s))))
          = c :: reverse l') as Hchars.
  { by rewrite chars_rev, Hl', reverse_app. }
  destruct (String.rev (Py.lstrip (String.rev (String c s)))) as [|c' r];
    simpl in Hchars; [done|]. simpl. by injection Hchars as ->.
Qed.

Lemma rstrip_rstrip s : Py.rstrip (Py.rstrip s) = Py.rstrip s.
Proof.
  unfold Py.rstrip. rewrite string_rev_involutive.
  by rewrite (lstrip_clean (Py.lstrip _)) by apply lstrip_first.
Qed.

(** Trimming a trimmed text changes nothing. *)
Lemma strip_strip s : Py.strip (Py.strip s) = Py.strip s.
Proof.
  unfold Py.strip.
  rewrite (lstrip_clean (Py.rstrip _)).
  - apply rstrip_rstrip.
  - apply rstrip_starts_clean, lstrip_first.
Qed.

Lemma or_none_trimmed s : trimmed_or_null (Py.or_none (Py.strip s)).
Proof.
  intros d. unfold Py.or_none.
  destruct (String.eqb_spec (Py.strip s) "") as [|Hne]; [done|].
  intros [= <-]. split; [done|apply strip_strip].
Qed.

(** * Further properties of the handlers *)

(** ** Editing, deleting and restoring *)

Lemma restore_task_ok tid ts db t :
  tasks db !! tid = Some t →
  deleted t ≠ 0 →
  let eid := next_rowid (events_seq db) (events db) in
  restore_task tid ts db
  = (MkDB (<[tid := set_deleted 0 ts t]> (tasks db))
          (<[eid := Event "restore" (Some tid)
                      (<["title" := JStr (title t)]>
                         (<["due_date" := jstr_opt (due_date t)]> ∅)) ts]>
             (events db))
          (tasks_seq db) eid,
     Redirect None (Index (Some "deleted"))).
Proof.
  intros Ht Hdel%Z.eqb_neq. unfold restore_task, fetch_task.
  rewrite Ht, Hdel. unfold set_tasks, log_event.
  by erewrite update_where_id_found.
Qed.

(** X1.  [edit_task] checks the title before it looks the task up: a title
    that is empty once trimmed gets the error flash and a redirect back to
    the edit page whether or not the task exists; with a proper title, an
    id without a row raises "Task not found" when it fits SQLite's 64-bit
    integers and [OverflowError] when it does not.  In each case the
    database is left as it was. *)
Theorem edit_task_rejections tid form_title form_due ts db :
  (Py.strip (Py.or_empty form_title) = "" →
     edit_task tid form_title form_due ts db
     = (db, Redirect (Some (TitleEmpty, flash_error)) (EditPage tid)))
  ∧ (Py.strip (Py.or_empty form_title) ≠ "" → tasks db !! tid = None →
       sqlite_int tid = true →
       edit_task tid form_title form_due ts db = (db, TaskNotFound))
  ∧ (Py.strip (Py.or_empty form_title) ≠ "" → tasks db !! tid = None →
       sqlite_int tid = false →
       edit_task tid form_title form_due ts db = (db, IntOverflow)).
Proof.
  unfold edit_task, fetch_task. split; [|split].
  - intros ->. done.
  - intros Hne%String.eqb_neq Hrow Hr. by rewrite Hne, Hrow, Hr.
  - intros Hne%String.eqb_neq Hrow Hr. by rewrite Hne, Hrow, Hr.
Qed.

Lemma edit_task_rejections_witness :
  edit_task 9 (Some "  ") None "2025-06-02T08:00:00Z" db_created
  = (db_created, Redirect (Some (TitleEmpty, flash_error)) (EditPage 9))
  ∧ edit_task 9 (Some "x") None "2025-06-02T08:00:00Z" db_created
    = (db_created, TaskNotFound)
  ∧ edit_task (2 ^ 63) (Some "x") None "2025-06-02T08:00:00Z" db_created
    = (db_created, IntOverflow).
Proof.
  split; [|split].
  - by apply (proj1 (edit_task_rejections 9 (Some "  ") None _ db_created)).
  - by apply (proj1 (proj2 (edit_task_rejections 9 (Some "x") None _
                              db_created))).
  - by apply (proj2 (proj2 (edit_task_rejections (2 ^ 63) (Some "x") None _
                              db_created))).
Defined.

(** X2.  A successful edit stores the trimmed title and the trimmed due
    date ([NULL] when blank), stamps [updated_at], keeps [done], [deleted]
    and [created_at], leaves every other row alone, and logs an edit event
    carrying the old title and due date.  A soft-deleted task is edited
    like any other. *)
Theorem edit_task_effect tid form_title form_due ts db t :
  Py.strip (Py.or_empty form_title) ≠ "" →
  tasks db !! tid = Some t →
  let db' := (edit_task tid form_title form_due ts db).1 in
  (∃ t', tasks db' !! tid = Some t'
         ∧ title t' = Py.strip (Py.or_empty form_title)
         ∧ due_date t' = Py.or_none (Py.strip (Py.or_empty form_due))
         ∧ updated_at t' = ts
         ∧ done t' = done t ∧ deleted t' = deleted t
         ∧ created_at t' = created_at t)
  ∧ (∀ j, j ≠ tid → tasks db' !! j = tasks db !! j)
  ∧ (∃ pl, last_event (events db')
           = Some (next_rowid (events_seq db) (events db),
                   Event "edit" (Some tid) pl ts)
         ∧ pl !! "before_title" = Some (JStr (title t))
         ∧ pl !! "before_due" = Some (jstr_opt (due_date t)))
  ∧ (∀ k, k ≠ next_rowid (events_seq db) (events db) →
          events db' !! k = events db !! k).
Proof.
  intros Hne Ht db'. subst db'. rewrite (edit_task_ok _ _ _ _ _ t) by done.
  cbn [fst tasks events]. split; [|split; [|split]].
  - eexists. rewrite lookup_insert_eq. done.
  - intros j Hj. by rewrite lookup_insert_ne.
  - eexists. split; [apply last_event_insert_next|].
    split; [apply lookup_insert_eq|].
    rewrite lookup_insert_ne by done. rewrite lookup_insert_ne by done.
    apply lookup_insert_eq.
  - intros k Hk. by rewrite lookup_insert_ne.
Qed.

Lemma edit_task_effect_witness :
  ∃ t', tasks (edit_task 1 (Some " buy oat milk ") (Some " ")
                 "2025-06-02T08:00:00Z" db_deleted).1 !! 1 = Some t'
        ∧ title t' = "buy oat milk" ∧ due_date t' = None ∧ deleted t' = 1.
Proof.
  destruct (edit_task_effect 1 (Some " buy oat milk ") (Some " ")
              "2025-06-02T08:00:00Z" db_deleted
              (Task "buy milk" (Some "2025-06-14") 0 1
                 "2025-06-01T08:00:00Z" "2025-06-01T10:00:00Z"))
    as [(t' & Ht' & Hti & Hdu & _ & _ & Hdel & _) _];
    [by vm_compute|by vm_compute|].
  exists t'. rewrite Hti, Hdu, Hdel. done.
Defined.



(** X4.  On an id that has no row, delete and restore leave the database
    as it was and raise "Task not found" when the id fits SQLite's 64-bit
    integers, [OverflowError] when it does not. *)
Theorem delete_restore_missing tid ts db :
  tasks db !! tid = None →
  (sqlite_int tid = true →
     delete_task tid ts db = (db, TaskNotFound)
     ∧ restore_task tid ts db = (db, TaskNotFound))
  ∧ (sqlite_int tid = false →
       delete_task tid ts db = (db, IntOverflow)
       ∧ restore_task tid ts db = (db, IntOverflow)).
Proof.
  intros Hrow. unfold delete_task, restore_task, fetch_task.
  rewrite Hrow. split; intros ->; done.
Qed.

Lemma delete_restore_missing_witness :
  delete_task 9 "2025-06-02T08:00:00Z" db_created = (db_created, TaskNotFound)
  ∧ restore_task 9 "2025-06-02T08:00:00Z" db_created
    = (db_created, TaskNotFound)
  ∧ delete_task (2 ^ 63) "2025-06-02T08:00:00Z" db_created
    = (db_created, IntOverflow)
  ∧ restore_task (2 ^ 63) "2025-06-02T08:00:00Z" db_created
    = (db_created, IntOverflow).
Proof.
  destruct (delete_restore_missing 9 "2025-06-02T08:00:00Z" db_created)
    as [[H1 H2] _]; [done|done|].
  destruct (delete_restore_missing (2 ^ 63) "2025-06-02T08:00:00Z" db_created)
    as [_ [H3 H4]]; [done|done|].
  done.
Defined.

(** X5.  An accepted create stores one new row under an id above every id
    in the table and above the table's counter, with the trimmed title,
    the trimmed due date ([NULL] when blank), [done] and [deleted] 0 and
    both timestamps the current time; every row that was there is kept as
    it is, and the create event is the most recent one. *)
Theorem add_task_effect form_title form_due ts db :
  Py.strip (Py.or_empty form_title) ≠ "" →
  let tid := next_rowid (tasks_seq db) (tasks db) in
  let db' := (add_task form_title form_due ts db).1 in
  tasks db !! tid = None
  ∧ tasks_seq db < tid
  ∧ (∀ k, is_Some (tasks db !! k) → k < tid)
  ∧ tasks db' !! tid
    = Some (Task (Py.strip (Py.or_empty form_title))
                 (Py.or_none (Py.strip (Py.or_empty form_due))) 0 0 ts ts)
  ∧ (∀ k, k ≠ tid → tasks db' !! k = tasks db !! k)
  ∧ tasks_seq db' = tid
  ∧ (∃ pl, last_event (events db')
           = Some (next_rowid (events_seq db) (events db),
                   Event "create" (Some tid) pl ts))
  ∧ (add_task form_title form_due ts db).2 = Redirect None (Index None).
Proof.
  intros Hne tid db'. subst db'. rewrite add_task_ok by done.
  cbn [fst snd tasks events tasks_seq].
  split; [apply next_rowid_fresh|]. split; [apply next_rowid_gt_seq|].
  split; [apply next_rowid_gt|]. split; [apply lookup_insert_eq|].
  split; [intros k Hk; by rewrite lookup_insert_ne|]. split; [done|].
  split; [|done]. eexists. apply last_event_insert_next.
Qed.

Lemma add_task_effect_witness :
  tasks (add_task (Some " call mum ") None "2025-06-02T08:00:00Z"
           db_created).1 !! 2
  = Some (Task "call mum" None 0 0
            "2025-06-02T08:00:00Z" "2025-06-02T08:00:00Z").
Proof.
  destruct (add_task_effect (Some " call mum ") None "2025-06-02T08:00:00Z"
              db_created) as (_ & _ & _ & Hrow & _); [by vm_compute|].
  exact Hrow.
Defined.

(** ** Undo: edge cases and round trips *)

(** X6.  Undo answers "Nothing to undo yet." exactly when the event log is
    empty, and then leaves the database as it was. *)
Theorem undo_nothing_iff int_of_str ts db :
  ((undo_last int_of_str ts db).2
   = Redirect (Some (NothingToUndo, flash_info)) (Index None)
   ↔ events db = ∅)
  ∧ (events db = ∅ → (undo_last int_of_str ts db).1 = db).
Proof.
  split; [split|].
  - unfold undo_last. destruct (last_event (events db)) as [[eid ev]|] eqn:E.
    + destruct (undo_inverse _ _ _ _); simpl; intros [=].
    + intros _. by apply last_event_None.
  - intros Hemp. by rewrite undo_last_empty.
  - intros Hemp. by rewrite undo_last_empty.
Qed.

(** X7.  When the most recent event has an action other than the five
    known ones, undo answers "Undo not supported" and leaves both tables
    as they were: the event stays in the log. *)
Theorem undo_unsupported_action int_of_str ts db eid ev :
  last_event (events db) = Some (eid, ev) →
  action ev ≠ "create" → action ev ≠ "toggle" → action ev ≠ "edit" →
  action ev ≠ "delete" → action ev ≠ "restore" →
  undo_last int_of_str ts db
  = (db, Redirect (Some (UndoNotSupported, flash_error)) (Index None)).
Proof.
  intros Hlast H1%String.eqb_neq H2%String.eqb_neq H3%String.eqb_neq
    H4%String.eqb_neq H5%String.eqb_neq.
  unfold undo_last, undo_inverse. by rewrite Hlast, H1, H2, H3, H4, H5.
Qed.

Lemma undo_unsupported_action_witness :
  let db := MkDB ∅ {[ 1 := Event "archive" (Some 1) ∅ "" ]} 0 1 in
  undo_last no_int_of_str "2025-06-02T08:00:00Z" db
  = (db, Redirect (Some (UndoNotSupported, flash_error)) (Index None)).
Proof.
  apply (undo_unsupported_action no_int_of_str _ _ 1
           (Event "archive" (Some 1) ∅ "")); by vm_compute.
Defined.

(** X8.  Undo fails, with the "Undo failed" flash and both tables as they
    were, when the most recent event is a toggle whose payload has no
    [before_done] or has [null] there, and when it is an edit of a task
    that has a row but whose payload has no [before_title] (or [null]):
    the first raises on the payload, the second on the [NOT NULL]
    constraint of [title]. *)
Theorem undo_malformed_payload_fails int_of_str ts db eid ev :
  last_event (events db) = Some (eid, ev) →
  (action ev = "toggle"
   ∧ (payload ev !! "before_done" = None
      ∨ payload ev !! "before_done" = Some JNull))
  ∨ (action ev = "edit"
     ∧ (payload ev !! "before_title" = None
        ∨ payload ev !! "before_title" = Some JNull)
     ∧ ∃ tid, task_id ev = Some tid ∧ is_Some (tasks db !! tid)) →
  undo_last int_of_str ts db
  = (db, Redirect (Some (UndoFailed, flash_error)) (Index None)).
Proof.
  intros Hlast Hcase. apply (undo_last_failed _ _ _ _ _ Hlast).
  destruct Hcase as [[Hact Hpl]|(Hact & Hpl & tid & Htid & [t Ht])].
  - apply undo_inverse_toggle_bad; [done|]. by destruct Hpl as [-> | ->].
  - unfold undo_inverse. rewrite Hact, Htid. simpl. rewrite Ht.
    destruct Hpl as [-> | ->]; simpl;
      by destruct (bindable (payload ev !! "before_due")).
Qed.

Lemma undo_malformed_payload_fails_witness :
  let db := set_events (<[2 := Event "toggle" (Some 1) ∅ ""]>) db_created in
  undo_last no_int_of_str "2025-06-02T08:00:00Z" db
  = (db, Redirect (Some (UndoFailed, flash_error)) (Index None)).
Proof.
  apply (undo_malformed_payload_fails no_int_of_str _ _ 2
           (Event "toggle" (Some 1) ∅ "")); [by vm_compute|].
  left. split; [done|]. by left.
Defined.

(** X9.  Whatever the state, undo changes no row other than the one the
    most recent event names, never adds an event, and removes no event
    other than that most recent one; the two counters stay as they are. *)
Theorem undo_last_frame int_of_str ts db :
  let db' := (undo_last int_of_str ts db).1 in
  (∀ eid ev j, last_event (events db) = Some (eid, ev) →
     task_id ev ≠ Some j → tasks db' !! j = tasks db !! j)
  ∧ (∀ eid ev k, last_event (events db) = Some (eid, ev) →
       k ≠ eid → events db' !! k = events db !! k)
  ∧ (∀ k, is_Some (events db' !! k) → is_Some (events db !! k))
  ∧ tasks_seq db' = tasks_seq db ∧ events_seq db' = events_seq db.
Proof.
  intros db'. subst db'. unfold undo_last.
  destruct (last_event (events db)) as [[eid ev]|] eqn:Hlast;
    [|by repeat split].
  assert (∀ f j, task_id ev ≠ Some j →
            update_where_id (task_id ev) f (tasks db) !! j = tasks db !! j)
    as Hupd.
  { intros f j Hj. destruct (task_id ev) as [i|]; simpl; [|done].
    rewrite lookup_alter. case_decide; [congruence|done]. }
  destruct (undo_inverse int_of_str ev ts (tasks db)) as [m| |] eqn:Hinv;
    [|by repeat split..].
  cbn [fst tasks events tasks_seq events_seq].
  split; [|split; [|split]].
  - intros ? ? j [= <- <-] Hj. revert Hinv. unfold undo_inverse.
    repeat case_match; intros [= <-]; try done; try by apply Hupd.
    destruct (task_id ev) as [i|]; simpl; [|done].
    rewrite lookup_delete_ne; [done|congruence].
  - intros ? ? k [= <- <-] Hk. by rewrite lookup_delete_ne.
  - intros k. destruct (decide (k = eid)) as [->|Hk].
    + rewrite lookup_delete_eq. by intros [].
    + by rewrite lookup_delete_ne.
  - done.
Qed.

Lemma same_but_updated_at_refl t : same_but_updated_at t t.
Proof. by repeat split. Qed.

Lemma rows_same_but_updated_at (T : gmap Z task) tid t t' :
  T !! tid = Some t → same_but_updated_at t' t →
  ∀ k, option_Forall2 same_but_updated_at (<[tid := t']> T !! k) (T !! k).
Proof.
  intros Ht Hsame k. destruct (decide (k = tid)) as [->|Hk].
  - rewrite lookup_insert_eq, Ht. by constructor.
  - rewrite lookup_insert_ne by done.
    destruct (T !! k); constructor. apply same_but_updated_at_refl.
Qed.

Lemma rows_same_refl (T : gmap Z task) :
  ∀ k, option_Forall2 same_but_updated_at (T !! k) (T !! k).
Proof.
  intros k. destruct (T !! k); constructor. apply same_but_updated_at_refl.
Qed.

(** X10.  Undo straight after a write that logged an event takes that
    write back: it reports success, the event log is again what it was
    before the write, and so is the task table, row for row, up to
    [updated_at] (after a create the table is exactly what it was).  The
    flags [deleted] of the table are taken to be 0 or 1 and its [done]
    values to fit 64 bits, as every integer SQLite stores does. *)
Theorem undo_reverts_last_write int_of_str r ts ts' db :
  r ≠ PostUndo →
  (∀ k t, tasks db !! k = Some t →
     flag (deleted t) ∧ sqlite_int (done t) = true) →
  let db1 := (serve int_of_str r ts db).1 in
  events db1 ≠ events db →
  let db2 := (undo_last int_of_str ts' db1).1 in
  (undo_last int_of_str ts' db1).2
  = Redirect (Some (UndidLast, flash_success)) (Index None)
  ∧ events db2 = events db
  ∧ (∀ k, option_Forall2 same_but_updated_at (tasks db2 !! k)
                                             (tasks db !! k))
  ∧ (∀ ft fd, r = PostAdd ft fd → tasks db2 = tasks db).
Proof.
  intros Hr Hflag db1 Hlogged db2. subst db2 db1.
  destruct db as [T E s q]. cbn [tasks events] in *.
  destruct r as [ft fd|tid|tid ft fd|tid|tid|]; [| | | | |done];
    cbn [serve] in *.
  - destruct (decide (Py.strip (Py.or_empty ft) = "")) as [Hb|Hb].
    { unfold add_task in Hlogged. by rewrite Hb in Hlogged. }
    rewrite add_task_ok by done. cbn [fst snd tasks events tasks_seq events_seq].
    erewrite undo_last_logged; [|by apply undo_inverse_create].
    cbn [fst snd tasks events task_id delete_where_id].
    rewrite delete_insert_id by apply next_rowid_fresh.
    split; [done|]. split; [done|]. split; [apply rows_same_refl|done].
  - destruct (T !! tid) as [t|] eqn:Ht.
    2:{ unfold toggle_task, fetch_task in Hlogged. cbn [tasks] in Hlogged.
        by rewrite Ht in Hlogged. }
    destruct (decide (deleted t = 1)) as [Hd|Hd].
    { unfold toggle_task, fetch_task in Hlogged. cbn [tasks] in Hlogged.
      by rewrite Ht, Hd in Hlogged. }
    rewrite (toggle_task_ok _ _ _ t) by done.
    cbn [fst snd tasks events tasks_seq events_seq].
    erewrite undo_last_logged;
      [|eapply undo_inverse_toggle;
        [done|apply lookup_insert_eq|done|apply (Hflag tid t Ht)]].
    cbn [fst snd tasks events task_id update_where_id].
    rewrite alter_insert_eq.
    split; [done|]. split; [done|].
    split; [|intros ?? [=]]. by apply (rows_same_but_updated_at _ _ t).
  - destruct (decide (Py.strip (Py.or_empty ft) = "")) as [Hb|Hb].
    { unfold edit_task in Hlogged. by rewrite Hb in Hlogged. }
    destruct (T !! tid) as [t|] eqn:Ht.
    2:{ apply String.eqb_neq in Hb.
        unfold edit_task, fetch_task in Hlogged. cbn [tasks] in Hlogged.
        by rewrite Hb, Ht in Hlogged. }
    rewrite (edit_task_ok _ _ _ _ _ t) by done.
    cbn [fst snd tasks events tasks_seq events_seq].
    erewrite undo_last_logged;
      [|eapply undo_inverse_edit;
        [done|apply lookup_insert_eq|apply bindable_before_due]].
    cbn [fst snd tasks events task_id update_where_id payload].
    rewrite alter_insert_eq.
    rewrite lookup_insert_ne by done. rewrite lookup_insert_ne by done.
    rewrite lookup_insert_eq, sql_text_jstr_opt.
    split; [done|]. split; [done|].
    split; [|intros ?? [=]]. by apply (rows_same_but_updated_at _ _ t).
  - destruct (T !! tid) as [t|] eqn:Ht.
    2:{ unfold delete_task, fetch_task in Hlogged. cbn [tasks] in Hlogged.
        by rewrite Ht in Hlogged. }
    destruct (decide (deleted t = 1)) as [Hd|Hd].
    { unfold delete_task, fetch_task in Hlogged. cbn [tasks] in Hlogged.
      by rewrite Ht, Hd in Hlogged. }
    rewrite (delete_task_ok _ _ _ t) by done.
    cbn [fst snd tasks events tasks_seq events_seq].
    erewrite undo_last_logged; [|by apply undo_inverse_delete].
    cbn [fst snd tasks events task_id update_where_id].
    rewrite alter_insert_eq.
    split; [done|]. split; [done|].
    split; [|intros ?? [=]]. apply (rows_same_but_updated_at _ _ t); [done|].
    destruct (Hflag tid t Ht) as [[H0|H1] _]; [|done].
    by repeat split.
  - destruct (T !! tid) as [t|] eqn:Ht.
    2:{ unfold restore_task, fetch_task in Hlogged. cbn [tasks] in Hlogged.
        by rewrite Ht in Hlogged. }
    destruct (decide (deleted t = 0)) as [Hd|Hd].
    { unfold restore_task, fetch_task in Hlogged. cbn [tasks] in Hlogged.
      by rewrite Ht, Hd in Hlogged. }
    rewrite (restore_task_ok _ _ _ t) by done.
    cbn [fst snd tasks events tasks_seq events_seq].
    erewrite undo_last_logged; [|by apply undo_inverse_restore].
    cbn [fst snd tasks events task_id update_where_id].
    rewrite alter_insert_eq.
    split; [done|]. split; [done|].
    split; [|intros ?? [=]]. apply (rows_same_but_updated_at _ _ t); [done|].
    destruct (Hflag tid t Ht) as [[H0|H1] _]; [done|].
    by repeat split.
Qed.

Lemma undo_reverts_last_write_witness :
  events (undo_last no_int_of_str "2025-06-02T09:00:00Z"
            (serve no_int_of_str (PostDelete 1) "2025-06-02T08:00:00Z"
               db_created).1).1
  = events db_created.
Proof.
  destruct (undo_reverts_last_write no_int_of_str (PostDelete 1)
              "2025-06-02T08:00:00Z" "2025-06-02T09:00:00Z" db_created)
    as (_ & Hev & _); [done| |by vm_compute|exact Hev].
  change (map_Forall (λ _ t, flag (deleted t) ∧ sqlite_int (done t) = true)
            (tasks db_created)).
  eapply bool_decide_unpack. by vm_compute.
Defined.

(** X11.  The log is append-only but for undo: a request leaves the log
    as it is, or adds to it one event under an id above every id in the
    log and above the log's counter, or, for undo alone, removes the most
    recent event and nothing else.  No request rewrites an event. *)
Theorem log_append_or_pop int_of_str r ts db :
  let db' := (serve int_of_str r ts db).1 in
  let eid := next_rowid (events_seq db) (events db) in
  events db' = events db
  ∨ (r ≠ PostUndo ∧ events db !! eid = None
     ∧ (∀ k, is_Some (events db !! k) → k < eid) ∧ events_seq db < eid
     ∧ ∃ ev, events db' = <[eid := ev]> (events db)
             ∧ ev_created_at ev = ts)
  ∨ (r = PostUndo
     ∧ ∃ k ev, last_event (events db) = Some (k, ev)
               ∧ events db' = delete k (events db)).
Proof.
  intros db' eid. subst db'.
  assert (events db !! eid = None
          ∧ (∀ k, is_Some (events db !! k) → k < eid) ∧ events_seq db < eid)
    as (F1 & F2 & F3).
  { split; [apply next_rowid_fresh|].
    split; [apply next_rowid_gt|apply next_rowid_gt_seq]. }
  assert (∀ act tid pl db0,
            events db0 = events db → events_seq db0 = events_seq db →
            ∃ ev, events (log_event act tid pl ts db0) = <[eid := ev]> (events db)
                  ∧ ev_created_at ev = ts) as Hlog.
  { intros act tid pl db0 HE Hq. unfold log_event. cbn [events].
    rewrite HE, Hq. by eexists. }
  destruct r as [ft fd|tid|tid ft fd|tid|tid|]; cbn [serve];
    [unfold add_task|unfold toggle_task|unfold edit_task
    |unfold delete_task|unfold restore_task|];
    [repeat case_match; try (by left); right; left;
     (split; [done|]); (split; [done|]); (split; [done|]);
     (split; [done|]); cbn [fst]; apply Hlog; done..|].
  - unfold undo_last. destruct (last_event (events db)) as [[k ev]|];
      [|by left].
    destruct (undo_inverse _ _ _ _); try by left.
    right; right. split; [done|]. by exists k, ev.
Qed.

(** X12.  Toggling an open task twice brings [done] back to what it was
    (for a flag that is 0 or 1) and changes no other column but
    [updated_at]; each of the two toggles logs one event. *)
Theorem toggle_twice tid ts1 ts2 db t :
  tasks db !! tid = Some t →
  deleted t ≠ 1 →
  flag (done t) →
  let db1 := (toggle_task tid ts1 db).1 in
  let db2 := (toggle_task tid ts2 db1).1 in
  (∃ t2, tasks db2 !! tid = Some t2
         ∧ same_but_updated_at t2 t ∧ updated_at t2 = ts2)
  ∧ size (events db1) = S (size (events db))
  ∧ size (events db2) = S (S (size (events db))).
Proof.
  intros Ht Hdel Hdone db1 db2. subst db2 db1.
  rewrite (toggle_task_ok tid ts1 db t) by done.
  cbn [fst tasks events].
  erewrite toggle_task_ok; [|apply lookup_insert_eq|done].
  cbn [fst tasks events events_seq]. rewrite insert_insert_eq.
  split; [|split].
  - eexists. rewrite lookup_insert_eq. split; [done|]. split; [|done].
    unfold same_but_updated_at, set_done. simpl.
    repeat split. by destruct Hdone as [-> | ->].
  - by rewrite map_size_insert_None by apply next_rowid_fresh.
  - rewrite map_size_insert_None by apply next_rowid_fresh.
    by rewrite map_size_insert_None by apply next_rowid_fresh.
Qed.

Lemma toggle_twice_witness :
  done <$> tasks (toggle_task 1 "2025-06-02T09:00:00Z"
                    (toggle_task 1 "2025-06-02T08:00:00Z" db_created).1).1
             !! 1
  = Some 0.
Proof.
  destruct (toggle_twice 1 "2025-06-02T08:00:00Z" "2025-06-02T09:00:00Z"
              db_created
              (Task "buy milk" (Some "2025-06-14") 0 0
                 "2025-06-01T08:00:00Z" "2025-06-01T08:00:00Z"))
    as [(t2 & -> & (_ & _ & Hd & _) & _) _];
    [by vm_compute|done|by left|].
  simpl. by rewrite Hd.
Defined.

(** ** The log stays consistent with the task table *)

Lemma consistent_empty : consistent empty_db.
Proof.
  split; simpl.
  - intros tid [t Ht]. by rewrite lookup_empty in Ht.
  - intros eid [e He]. by rewrite lookup_empty in He.
  - intros tid t Ht. by rewrite lookup_empty in Ht.
  - intros eid ev He. by rewrite lookup_empty in He.
  - intros c1 c2 e1 e2 tid He. by rewrite lookup_empty in He.
  - intros tid [t Ht]. by rewrite lookup_empty in Ht.
Qed.

Section Preservation.
Variables (T : gmap Z task) (E : gmap Z event) (s q : Z).
Hypothesis Hdb : consistent (MkDB T E s q).

Let eid := next_rowid q E.

Lemma lookup_insert_fresh_event c ce ev :
  E !! c = Some ce → <[eid := ev]> E !! c = Some ce.
Proof.
  intros Hc. rewrite lookup_insert_ne; [done|]. intros <-.
  subst eid. by rewrite next_rowid_fresh in Hc.
Qed.

Lemma is_Some_insert_task (tid k : Z) (t' : task) :
  is_Some (T !! k) → is_Some (<[tid := t']> T !! k).
Proof.
  intros Hk. rewrite lookup_insert. by case_decide.
Qed.

(** A handler that rewrites an existing row and logs an event for it. *)
Lemma consistent_log tid t t' ev q' :
  T !! tid = Some t → task_ok t' → payload_ok ev →
  task_id ev = Some tid → action ev ≠ "create" → q' = eid →
  consistent (MkDB (<[tid := t']> T) (<[eid := ev]> E) s q').
Proof.
  intros Ht Hok Hpl Htid Hact ->. destruct Hdb as [H1 H2 H3 H4 H5 H6].
  simpl in *.
  assert (∀ k, is_Some (<[tid := t']> T !! k) → is_Some (T !! k)) as Hdom.
  { intros k. rewrite lookup_insert. case_decide; subst; [by rewrite Ht|done]. }
  split; simpl.
  - intros k Hk. by apply H1, Hdom.
  - intros k. rewrite lookup_insert. case_decide; subst; [done|].
    intros Hk%(next_rowid_gt q). fold eid in Hk. lia.
  - intros k tk. rewrite lookup_insert. case_decide; [by intros [= <-]|].
    apply H3.
  - intros k e. rewrite lookup_insert. case_decide.
    + intros [= <-]. split; [done|]. exists tid. split; [done|].
      split; [by rewrite lookup_insert_eq|].
      destruct (H6 tid) as (c & ce & Hc & Hcr); [by rewrite Ht|].
      exists c, ce. split; [|split; [by apply lookup_insert_fresh_event|done]].
      assert (c < eid) by (apply next_rowid_gt; by rewrite Hc). lia.
    + intros He. destruct (H4 k e He) as (Hp & tid' & Ht' & Hs & c & ce & Hle & Hc & Hcr).
      split; [done|]. exists tid'. split; [done|].
      split; [by apply is_Some_insert_task|].
      exists c, ce. split; [done|].
      split; [by apply lookup_insert_fresh_event|done].
  - intros c1 c2 e1 e2 tid0. rewrite !lookup_insert.
    case_decide; [intros [= <-] _ [Ha _]; done|].
    case_decide; [intros _ [= <-] _ [Ha _]; done|].
    apply H5.
  - intros k Hk%Hdom. destruct (H6 k Hk) as (c & ce & Hc & Hcr).
    exists c, ce. split; [by apply lookup_insert_fresh_event|done].
Qed.

(** [add_task]: a fresh row and its create event. *)
Lemma consistent_add t' ev :
  let tid := next_rowid s T in
  task_ok t' → creates tid ev →
  consistent (MkDB (<[tid := t']> T) (<[eid := ev]> E) tid eid).
Proof.
  intros tid Hok [Hact Htid]. destruct Hdb as [H1 H2 H3 H4 H5 H6].
  simpl in *.
  assert (T !! tid = None) as Hfresh by apply next_rowid_fresh.
  assert (∀ k e, E !! k = Some e → ¬ creates tid e) as Hnone.
  { intros k e He [_ Hk].
    destruct (H4 k e He) as (_ & tid' & Ht' & [t Ht] & _).
    rewrite Hk in Ht'. injection Ht' as <-. by rewrite Hfresh in Ht. }
  split; simpl.
  - intros k. rewrite lookup_insert. case_decide; subst; [done|].
    intros Hk%H1. pose proof (next_rowid_gt_seq s T) as Hs. fold tid in Hs. lia.
  - intros k. rewrite lookup_insert. case_decide; subst; [done|].
    intros Hk%(next_rowid_gt q). fold eid in Hk. lia.
  - intros k tk. rewrite lookup_insert. case_decide; [by intros [= <-]|].
    apply H3.
  - intros k e. rewrite lookup_insert. case_decide.
    + intros [= <-]. split; [by left|]. exists tid. split; [done|].
      split; [by rewrite lookup_insert_eq|].
      exists eid, ev. subst. split; [done|].
      split; [apply lookup_insert_eq|done].
    + intros He.
      destruct (H4 k e He) as (Hp & tid' & Ht' & Hs & c & ce & Hle & Hc & Hcr).
      split; [done|]. exists tid'. split; [done|].
      split; [by apply is_Some_insert_task|].
      exists c, ce. split; [done|].
      split; [by apply lookup_insert_fresh_event|done].
  - intros c1 c2 e1 e2 tid0. rewrite !lookup_insert.
    case_decide; case_decide; subst; try done.
    + intros [= <-] He2 [_ Ht1] Hc2. rewrite Htid in Ht1.
      injection Ht1 as <-. by destruct (Hnone c2 e2 He2).
    + intros He1 [= <-] Hc1 [_ Ht2]. rewrite Htid in Ht2.
      injection Ht2 as <-. by destruct (Hnone c1 e1 He1).
    + apply H5.
  - intros k. rewrite lookup_insert. case_decide; subst.
    + intros _. exists eid, ev. split; [apply lookup_insert_eq|done].
    + intros Hk. destruct (H6 k Hk) as (c & ce & Hc & Hcr).
      exists c, ce. split; [by apply lookup_insert_fresh_event|done].
Qed.

(** Undo of an event that is not a create: the row is rewritten and the
    event leaves the log. *)
Lemma consistent_undo_update k ev tid t t' :
  last_event E = Some (k, ev) → action ev ≠ "create" →
  T !! tid = Some t → task_ok t' →
  consistent (MkDB (<[tid := t']> T) (delete k E) s q).
Proof.
  intros Hlast Hact Ht Hok. destruct Hdb as [H1 H2 H3 H4 H5 H6].
  simpl in *.
  pose proof (last_event_spec E) as Hspec. rewrite Hlast in Hspec.
  destruct Hspec as [Hk Hmax].
  assert (∀ j, is_Some (<[tid := t']> T !! j) → is_Some (T !! j)) as Hdom.
  { intros j. rewrite lookup_insert. case_decide; subst; [by rewrite Ht|done]. }
  assert (∀ c ce tid0, E !! c = Some ce → creates tid0 ce →
            delete k E !! c = Some ce) as Hkeep.
  { intros c ce tid0 Hc [Ha _]. rewrite lookup_delete_ne; [done|].
    intros <-. congruence. }
  split; simpl.
  - intros j Hj. by apply H1, Hdom.
  - intros j [e He]. apply lookup_delete_Some in He as [_ He].
    apply H2. by rewrite He.
  - intros j tj. rewrite lookup_insert. case_decide; [by intros [= <-]|].
    apply H3.
  - intros j e [Hj He]%lookup_delete_Some.
    destruct (H4 j e He) as (Hp & tid' & Ht' & Hs & c & ce & Hle & Hc & Hcr).
    split; [done|]. exists tid'. split; [done|].
    split; [by apply is_Some_insert_task|].
    exists c, ce. split; [done|]. split; [by eapply Hkeep|done].
  - intros c1 c2 e1 e2 tid0 [_ He1]%lookup_delete_Some
      [_ He2]%lookup_delete_Some. by apply H5.
  - intros j Hj%Hdom. destruct (H6 j Hj) as (c & ce & Hc & Hcr).
    exists c, ce. split; [by eapply Hkeep|done].
Qed.

(** Undo of a create: the row and its create event both go. *)
Lemma consistent_undo_create k ev tid :
  last_event E = Some (k, ev) → creates tid ev →
  consistent (MkDB (delete tid T) (delete k E) s q).
Proof.
  intros Hlast Hcr. destruct Hdb as [H1 H2 H3 H4 H5 H6]. simpl in *.
  pose proof (last_event_spec E) as Hspec. rewrite Hlast in Hspec.
  destruct Hspec as [Hk Hmax].
  split; simpl.
  - intros j [t [_ Hj]%lookup_delete_Some]. apply H1. by rewrite Hj.
  - intros j [e [_ He]%lookup_delete_Some]. apply H2. by rewrite He.
  - intros j t [_ Hj]%lookup_delete_Some. by eapply H3.
  - intros j e [Hj He]%lookup_delete_Some.
    destruct (H4 j e He) as (Hp & tid' & Ht' & Hs & c & ce & Hle & Hc & Hcr').
    assert (tid' ≠ tid) as Hne.
    { intros ->. assert (c = k) as -> by (by eapply H5).
      assert (j ≤ k) by (apply Hmax; by rewrite He). lia. }
    split; [done|]. exists tid'. split; [done|].
    split; [by rewrite lookup_delete_ne|].
    exists c, ce. split; [done|]. split; [|done].
    rewrite lookup_delete_ne; [done|]. intros <-.
    rewrite Hk in Hc. injection Hc as <-.
    destruct Hcr as [_ Ha], Hcr' as [_ Hb]. congruence.
  - intros c1 c2 e1 e2 tid0 [_ He1]%lookup_delete_Some
      [_ He2]%lookup_delete_Some. by apply H5.
  - intros j [t [Hj Ht]%lookup_delete_Some].
    destruct (H6 j) as (c & ce & Hc & Hcr'); [by rewrite Ht|].
    exists c, ce. split; [|done].
    rewrite lookup_delete_ne; [done|]. intros <-.
    rewrite Hk in Hc. injection Hc as <-.
    destruct Hcr as [_ Ha], Hcr' as [_ Hb]. congruence.
Qed.

End Preservation.

Lemma task_ok_set_done b ts t : task_ok t → flag b → task_ok (set_done b ts t).
Proof. unfold task_ok. simpl. tauto. Qed.

Lemma task_ok_set_deleted b ts t :
  task_ok t → flag b → task_ok (set_deleted b ts t).
Proof. unfold task_ok. simpl. tauto. Qed.

Lemma task_ok_set_title_due ti du ts t :
  task_ok t → ti ≠ "" → trimmed ti → trimmed_or_null du →
  task_ok (set_title_due ti du ts t).
Proof. unfold task_ok. simpl. tauto. Qed.

(** What undo does in a consistent state with a non-empty log: the event's
    task has a row, and undo either removes that row (a create) or
    rewrites it into a row that is again well formed. *)
Lemma undo_last_consistent_shape int_of_str ts db k ev :
  consistent db →
  last_event (events db) = Some (k, ev) →
  ∃ tid t, task_id ev = Some tid ∧ tasks db !! tid = Some t
    ∧ ((creates tid ev
        ∧ undo_last int_of_str ts db
          = (MkDB (delete tid (tasks db)) (delete k (events db))
                  (tasks_seq db) (events_seq db),
             Redirect (Some (UndidLast, flash_success)) (Index None)))
       ∨ (action ev ≠ "create"
          ∧ ∃ t', task_ok t'
              ∧ undo_last int_of_str ts db
                = (MkDB (<[tid := t']> (tasks db)) (delete k (events db))
                        (tasks_seq db) (events_seq db),
                   Redirect (Some (UndidLast, flash_success))
                            (Index None)))).
Proof.
  intros Hdb Hlast.
  pose proof (last_event_spec (events db)) as Hspec. rewrite Hlast in Hspec.
  destruct Hspec as [Hk _].
  destruct (events_ok db Hdb k ev Hk) as (Hpl & tid & Htid & [t Ht] & _).
  pose proof (tasks_ok db Hdb tid t Ht) as Hok.
  exists tid, t. split; [done|]. split; [done|].
  destruct Hpl as [Ha|[Ha|[Ha|[[Ha (b & Hb & Hfb)]
                               |[Ha (ti & du & Hti & Hne & Htr & Hdu & Hdtr)]]]]].
  - left. split; [done|].
    erewrite undo_last_applied; [|done|by apply undo_inverse_create].
    by rewrite Htid.
  - right. split; [by rewrite Ha|].
    exists (set_deleted 0 ts t). split; [apply task_ok_set_deleted; [done|by left]|].
    erewrite undo_last_applied; [|done|by apply undo_inverse_delete].
    rewrite Htid. by erewrite update_where_id_found.
  - right. split; [by rewrite Ha|].
    exists (set_deleted 1 ts t). split; [apply task_ok_set_deleted; [done|by right]|].
    erewrite undo_last_applied; [|done|by apply undo_inverse_restore].
    rewrite Htid. by erewrite update_where_id_found.
  - right. split; [by rewrite Ha|].
    exists (set_done b ts t). split; [by apply task_ok_set_done|].
    erewrite undo_last_applied;
      [|done|eapply undo_inverse_toggle; [done|done|done|]];
      [|by destruct Hfb as [-> | ->]].
    rewrite Htid. by erewrite update_where_id_found.
  - right. split; [by rewrite Ha|].
    exists (set_title_due ti du ts t).
    split; [by apply task_ok_set_title_due|].
    erewrite undo_last_applied;
      [|done|eapply undo_inverse_edit;
             [done|done|rewrite Hdu; apply bindable_jstr_opt]].
    rewrite Htid, Hdu, sql_text_jstr_opt.
    by erewrite update_where_id_found.
Qed.

Lemma serve_consistent int_of_str r ts db :
  consistent db → consistent (serve int_of_str r ts db).1.
Proof.
  intros Hdb. destruct db as [T E s q].
  destruct r as [ft fd|tid|tid ft fd|tid|tid|]; cbn [serve].
  - destruct (decide (Py.strip (Py.or_empty ft) = "")) as [Hb|Hb].
    { unfold add_task. by rewrite Hb. }
    rewrite add_task_ok by done. cbn [fst tasks events tasks_seq events_seq].
    apply consistent_add; [done| |done].
    split; [done|]. split; [apply strip_strip|].
    split; [apply or_none_trimmed|]. split; by left.
  - destruct (T !! tid) as [t|] eqn:Ht.
    2:{ unfold toggle_task, fetch_task. cbn [tasks]. by rewrite Ht. }
    destruct (decide (deleted t = 1)) as [Hd|Hd].
    { unfold toggle_task, fetch_task. cbn [tasks]. by rewrite Ht, Hd. }
    pose proof (tasks_ok _ Hdb tid t Ht) as Hok.
    rewrite (toggle_task_ok _ _ _ t) by done.
    cbn [fst tasks events tasks_seq events_seq].
    eapply consistent_log; [done|done| | |done|done|done].
    + apply task_ok_set_done; [done|]. case_match; [by left|by right].
    + right; right; right; left. split; [done|]. exists (done t).
      split; [apply lookup_insert_eq|]. by destruct Hok as (_ & _ & _ & ? & _).
  - destruct (decide (Py.strip (Py.or_empty ft) = "")) as [Hb|Hb].
    { unfold edit_task. by rewrite Hb. }
    destruct (T !! tid) as [t|] eqn:Ht.
    2:{ apply String.eqb_neq in Hb. unfold edit_task, fetch_task.
        cbn [tasks]. by rewrite Hb, Ht. }
    pose proof (tasks_ok _ Hdb tid t Ht) as Hok.
    rewrite (edit_task_ok _ _ _ _ _ t) by done.
    cbn [fst tasks events tasks_seq events_seq].
    eapply consistent_log; [done|done| | |done|done|done].
    + apply task_ok_set_title_due;
        [done|done|apply strip_strip|apply or_none_trimmed].
    + right; right; right; right. split; [done|].
      destruct Hok as (Hne & Htr & Hdu & _).
      exists (title t), (due_date t). split; [apply lookup_insert_eq|].
      split; [done|]. split; [done|]. split; [|done].
      cbn [payload].
      rewrite lookup_insert_ne by done. rewrite lookup_insert_ne by done.
      apply lookup_insert_eq.
  - destruct (T !! tid) as [t|] eqn:Ht.
    2:{ unfold delete_task, fetch_task. cbn [tasks]. by rewrite Ht. }
    destruct (decide (deleted t = 1)) as [Hd|Hd].
    { unfold delete_task, fetch_task. cbn [tasks]. by rewrite Ht, Hd. }
    pose proof (tasks_ok _ Hdb tid t Ht) as Hok.
    rewrite (delete_task_ok _ _ _ t) by done.
    cbn [fst tasks events tasks_seq events_seq].
    eapply consistent_log; [done|done| | |done|done|done].
    + apply task_ok_set_deleted; [done|by right].
    + right; left. done.
  - destruct (T !! tid) as [t|] eqn:Ht.
    2:{ unfold restore_task, fetch_task. cbn [tasks]. by rewrite Ht. }
    destruct (decide (deleted t = 0)) as [Hd|Hd].
    { unfold restore_task, fetch_task. cbn [tasks]. by rewrite Ht, Hd. }
    pose proof (tasks_ok _ Hdb tid t Ht) as Hok.
    rewrite (restore_task_ok _ _ _ t) by done.
    cbn [fst tasks events tasks_seq events_seq].
    eapply consistent_log; [done|done| | |done|done|done].
    + apply task_ok_set_deleted; [done|by left].
    + right; right; left. done.
  - destruct (last_event E) as [[k ev]|] eqn:Hlast.
    2:{ rewrite undo_last_empty; [done|]. by apply last_event_None. }
    destruct (undo_last_consistent_shape int_of_str ts _ k ev Hdb Hlast)
      as (tid & t & Htid & Ht & [[Hcr ->]|(Hact & t' & Hok & ->)]);
      cbn [fst tasks events tasks_seq events_seq].
    + by eapply consistent_undo_create.
    + by eapply consistent_undo_update.
Qed.

Lemma run_preserves_consistent int_of_str rs db :
  consistent db → consistent (run int_of_str rs db).
Proof.
  revert db. induction rs as [|[r ts] rs IH]; intros db Hdb; simpl; [done|].
  by apply IH, serve_consistent.
Qed.

(** X13.  Every write request keeps the database consistent, and so does
    every sequence of them: rows stay well formed and below the id
    counter, every event keeps naming a task that has a row and whose
    create event is in the log at or below it, and no task has two create
    events. *)
Theorem run_consistent int_of_str r ts rs db :
  consistent db →
  consistent (serve int_of_str r ts db).1
  ∧ consistent (run int_of_str rs db).
Proof.
  intros Hdb. split; [by apply serve_consistent|].
  by apply run_preserves_consistent.
Qed.

Lemma run_consistent_witness :
  consistent (run no_int_of_str
                [(PostAdd (Some "buy milk") None, "2025-06-01T08:00:00Z");
                 (PostToggle 1, "2025-06-01T09:00:00Z");
                 (PostUndo, "2025-06-01T10:00:00Z")] empty_db).
Proof.
  apply (run_consistent no_int_of_str PostUndo "" _ empty_db).
  apply consistent_empty.
Defined.

(** X14.  In every state reached from the empty database through write
    requests, each row has a non-empty title without whitespace at either
    end, a due date that is [NULL] or such a text, and flags that are 0 or
    1; and each event in the log names a task that has a row: no event is
    stale. *)
Theorem reachable_rows_and_events int_of_str rs :
  let db := run int_of_str rs empty_db in
  (∀ tid t, tasks db !! tid = Some t →
     title t ≠ "" ∧ Py.strip (title t) = title t
     ∧ (∀ d, due_date t = Some d → d ≠ "" ∧ Py.strip d = d)
     ∧ (done t = 0 ∨ done t = 1) ∧ (deleted t = 0 ∨ deleted t = 1))
  ∧ (∀ eid ev, events db !! eid = Some ev →
       ∃ tid, task_id ev = Some tid ∧ is_Some (tasks db !! tid)).
Proof.
  intros db.
  assert (consistent db) as Hdb.
  { apply run_preserves_consistent, consistent_empty. }
  split.
  - intros tid t Ht. apply (tasks_ok db Hdb tid t Ht).
  - intros eid ev He.
    destruct (events_ok db Hdb eid ev He) as (_ & tid & Htid & Hs & _).
    by exists tid.
Qed.

(** X15.  In a consistent state undo never fails: it answers "Nothing to
    undo yet." when the log is empty and "Undid last action." otherwise,
    and in the latter case the event it reverts named a task that had a
    row, and exactly that event is gone from the log. *)
Theorem undo_never_fails int_of_str ts db :
  consistent db →
  (events db = ∅
   ∧ undo_last int_of_str ts db
     = (db, Redirect (Some (NothingToUndo, flash_info)) (Index None)))
  ∨ (∃ k ev tid,
       last_event (events db) = Some (k, ev)
       ∧ task_id ev = Some tid ∧ is_Some (tasks db !! tid)
       ∧ (undo_last int_of_str ts db).2
         = Redirect (Some (UndidLast, flash_success)) (Index None)
       ∧ events (undo_last int_of_str ts db).1 = delete k (events db)).
Proof.
  intros Hdb. destruct (last_event (events db)) as [[k ev]|] eqn:Hlast.
  - right.
    destruct (undo_last_consistent_shape int_of_str ts _ k ev Hdb Hlast)
      as (tid & t & Htid & Ht & [[Hcr ->]|(Hact & t' & Hok & ->)]);
      exists k, ev, tid; by rewrite Ht.
  - left. apply last_event_None in Hlast.
    split; [done|]. by apply undo_last_empty.
Qed.

Lemma undo_never_fails_witness :
  (undo_last no_int_of_str "2025-06-02T08:00:00Z" db_toggled).2
  = Redirect (Some (UndidLast, flash_success)) (Index None).
Proof.
  destruct (undo_never_fails no_int_of_str "2025-06-02T08:00:00Z" db_toggled)
    as [[Hemp _]|(k & ev & tid & _ & _ & _ & Hr & _)].
  - change db_toggled
      with (run no_int_of_str
              [(PostAdd (Some "buy milk") (Some "2025-06-14"),
                "2025-06-01T08:00:00Z");
               (PostToggle 1, "2025-06-01T09:00:00Z")] empty_db).
    repeat apply serve_consistent. apply consistent_empty.
  - by vm_compute in Hemp.
  - exact Hr.
Defined.

Lemma serve_seq_mono int_of_str r ts db :
  tasks_seq db ≤ tasks_seq (serve int_of_str r ts db).1
  ∧ events_seq db ≤ events_seq (serve int_of_str r ts db).1.
Proof.
  pose proof (next_rowid_gt_seq (tasks_seq db) (tasks db)) as Ht.
  pose proof (next_rowid_gt_seq (events_seq db) (events db)) as He.
  destruct r as [ft fd|tid|tid ft fd|tid|tid|]; cbn [serve];
    [unfold add_task|unfold toggle_task|unfold edit_task
    |unfold delete_task|unfold restore_task|unfold undo_last];
    repeat case_match;
    cbn [fst tasks events tasks_seq events_seq log_event set_tasks];
    lia.
Qed.

Lemma run_seq_mono int_of_str rs db :
  tasks_seq db ≤ tasks_seq (run int_of_str rs db)
  ∧ events_seq db ≤ events_seq (run int_of_str rs db).
Proof.
  revert db. induction rs as [|[r ts] rs IH]; intros db; simpl; [lia|].
  pose proof (serve_seq_mono int_of_str r ts db).
  pose proof (IH (serve int_of_str r ts db).1). lia.
Qed.

(** X16.  Ids are never reused: whatever requests follow, the id the next
    create would get is above the id of every task that is in the table
    now, and the id the next event would get is above the id of every
    event that is in the log now, also when that task or event has been
    removed by an undo in between. *)
Theorem ids_never_reused int_of_str rs db :
  consistent db →
  let db' := run int_of_str rs db in
  (∀ k, is_Some (tasks db !! k) →
     k < next_rowid (tasks_seq db') (tasks db'))
  ∧ (∀ k, is_Some (events db !! k) →
       k < next_rowid (events_seq db') (events db')).
Proof.
  intros Hdb db'. destruct (run_seq_mono int_of_str rs db) as [Ht He].
  fold db' in Ht, He. split; intros k Hk.
  - pose proof (tasks_below_seq db Hdb k Hk).
    pose proof (next_rowid_gt_seq (tasks_seq db') (tasks db')). lia.
  - pose proof (events_below_seq db Hdb k Hk).
    pose proof (next_rowid_gt_seq (events_seq db') (events db')). lia.
Qed.

Lemma ids_never_reused_witness :
  let db' := run no_int_of_str [(PostUndo, "2025-06-02T08:00:00Z")]
               db_created in
  tasks db' !! 1 = None ∧ 1 < next_rowid (tasks_seq db') (tasks db').
Proof.
  split; [by vm_compute|].
  apply (ids_never_reused no_int_of_str [(PostUndo, "2025-06-02T08:00:00Z")]
           db_created).
  - change db_created
      with (serve no_int_of_str (PostAdd (Some "buy milk") (Some "2025-06-14"))
              "2025-06-01T08:00:00Z" empty_db).1.
    apply serve_consistent, consistent_empty.
  - eexists. vm_compute. reflexivity.
Defined.

(** X17.  In a consistent state the list sorted by due date orders any
    two tasks without a due date by [updated_at], newest first: there
    the column is never the empty string, so all undated tasks tie on the
    first two sort keys. *)
Theorem due_order_undated_when_consistent today db show i j a b :
  consistent db →
  (i < j)%nat →
  page_tasks (index show (Some "due") today db).2 !! i = Some a →
  page_tasks (index show (Some "due") today db).2 !! j = Some b →
  dated (row a) = false → dated (row b) = false →
  String.leb (updated_at (row b)) (updated_at (row a)) = true.
Proof.
  intros Hdb Hij Ha Hb Hda Hdb'.
  assert (∀ x, x ∈ page_tasks (index show (Some "due") today db).2 →
            dated (row x) = false → due_date (row x) = None) as Hnull.
  { intros x (Hrow & _)%page_tasks_elem Hd.
    destruct (tasks_ok db Hdb _ _ Hrow) as (_ & _ & Hne & _).
    unfold dated, Py.truthy in Hd.
    destruct (due_date (row x)) as [d|]; [|done].
    apply negb_false_iff, String.eqb_eq in Hd. subst d.
    by destruct (Hne "" eq_refl). }
  pose proof (Hnull a (list_elem_of_lookup_2 _ _ _ Ha) Hda) as Hna.
  pose proof (Hnull b (list_elem_of_lookup_2 _ _ _ Hb) Hdb') as Hnb.
  apply page_tasks_lookup in Ha, Hb.
  apply (by_due_inv (row_id a, row a) (row_id b, row b)).
  - eapply StronglySorted_lookup;
      [apply select_tasks_due_sorted|exact Hij|exact Ha|exact Hb].
  - simpl. by rewrite Hna, Hnb.
Qed.

Lemma due_order_undated_when_consistent_witness :
  (row_id <$> page_tasks (index None (Some "due") "2025-06-15"
                            db_two_undated).2) = [2; 1]
  ∧ String.leb "2025-05-01T08:00:00Z" "2025-05-02T08:00:00Z" = true.
Proof.
  split; [by vm_compute|].
  apply (due_order_undated_when_consistent "2025-06-15" db_two_undated None
           0%nat 1%nat
           (Shown 2 (Task "newer" None 0 0
                       "2025-05-02T08:00:00Z" "2025-05-02T08:00:00Z") None)
           (Shown 1 (Task "older" None 0 0
                       "2025-05-01T08:00:00Z" "2025-05-01T08:00:00Z") None));
    [|lia|by vm_compute|by vm_compute|done|done].
  apply run_preserves_consistent, consistent_empty.
Defined.

(** ** The activity feed *)

Global Instance by_id_desc_total : Total by_id_desc.
Proof. intros e1 e2. unfold by_id_desc. apply total, _. Qed.

Global Instance by_id_desc_trans : Transitive by_id_desc.
Proof. intros e1 e2 e3. unfold by_id_desc. apply transitivity. Qed.

Lemma by_id_desc_le e1 e2 : by_id_desc e1 e2 ↔ e2.1 ≤ e1.1.
Proof.
  unfold by_id_desc, cmp_le.
  change (cmp (Desc e1.1) (Desc e2.1)) with (Z.compare e2.1 e1.1).
  rewrite Z.compare_gt_iff. lia.
Qed.

Lemma events_newest_first_elem E k e :
  (k, e) ∈ events_newest_first E ↔ E !! k = Some e.
Proof.
  unfold events_newest_first.
  by rewrite merge_sort_Permutation, elem_of_map_to_list.
Qed.

Lemma events_newest_first_sorted E i j a b :
  (i < j)%nat →
  events_newest_first E !! i = Some a →
  events_newest_first E !! j = Some b → b.1 < a.1.
Proof.
  intros Hij Ha Hb.
  assert (by_id_desc a b) as Hle.
  { eapply (StronglySorted_lookup by_id_desc); [|exact Hij|exact Ha|exact Hb].
    apply StronglySorted_merge_sort; apply _. }
  apply (proj1 (by_id_desc_le a b)) in Hle.
  assert (a.1 ≠ b.1); [|lia]. intros Heq.
  assert (NoDup ((events_newest_first E).*1)) as Hnd.
  { unfold events_newest_first. rewrite merge_sort_Permutation.
    apply NoDup_fst_map_to_list. }
  assert (i = j); [|lia].
  eapply NoDup_lookup; [exact Hnd| |].
  - rewrite list_lookup_fmap, Ha. reflexivity.
  - rewrite list_lookup_fmap, Hb. simpl. by rewrite Heq.
Qed.

(** X18.  The activity feed lists events of the log, newest first by id
    with no id twice; it has as many entries as the log has events, up to
    200; its first entry is the event undo would revert; and an event of
    the log that is not listed is older than every listed one (which
    happens only when 200 are listed). *)
Theorem activity_newest_200 db :
  (∀ k e, (k, e) ∈ activity db → events db !! k = Some e)
  ∧ length (activity db) = (size (events db) `min` 200)%nat
  ∧ (∀ i j a b, (i < j)%nat → activity db !! i = Some a →
        activity db !! j = Some b → b.1 < a.1)
  ∧ activity db !! 0%nat = last_event (events db)
  ∧ (∀ k e, events db !! k = Some e → (k, e) ∉ activity db →
        length (activity db) = 200%nat
        ∧ ∀ x, x ∈ activity db → k < x.1).
Proof.
  unfold activity.
  set (l := events_newest_first (events db)).
  assert (length l = size (events db)) as Hlen.
  { subst l. unfold events_newest_first.
    by rewrite merge_sort_Permutation, length_map_to_list. }
  split; [|split; [|split; [|split]]].
  - intros k e Hin. apply events_newest_first_elem.
    by eapply subseteq_take.
  - rewrite length_take, Hlen. lia.
  - intros i j a b Hij [Ha Hi]%lookup_take_Some [Hb Hj]%lookup_take_Some.
    exact (events_newest_first_sorted _ i j a b Hij Ha Hb).
  - rewrite lookup_take_lt by lia.
    destruct (l !! 0%nat) as [[k e]|] eqn:Hhead.
    + symmetry. apply last_event_max.
      * apply events_newest_first_elem. by eapply list_elem_of_lookup_2.
      * intros k' [e' He']. apply events_newest_first_elem in He'.
        apply list_elem_of_lookup in He' as [j Hj]. fold l in Hj.
        destruct j as [|j]; [rewrite Hhead in Hj; by injection Hj as ->|].
        pose proof (events_newest_first_sorted (events db) 0 (S j) _ _
                      ltac:(lia) Hhead Hj) as Hlt. simpl in Hlt. lia.
    + symmetry. apply last_event_None. apply lookup_ge_None in Hhead.
      apply map_size_empty_iff. lia.
  - intros k e He%events_newest_first_elem Hout.
    apply list_elem_of_lookup in He as [j Hj]. fold l in Hj.
    assert (200 ≤ j)%nat as Hge.
    { destruct (decide (j < 200)%nat) as [Hlt|]; [|lia].
      destruct Hout. eapply list_elem_of_lookup_2.
      rewrite lookup_take_lt by done. exact Hj. }
    split.
    + rewrite length_take. apply lookup_lt_Some in Hj. lia.
    + intros x [i [Hx Hi]%lookup_take_Some]%list_elem_of_lookup.
      apply (events_newest_first_sorted (events db) i j x (k, e));
        [lia|done|done].
Qed.

(** ** The task list: every filter *)

Lemma NoDup_fmap_filter {A B} (f : A → B) (p : A → bool) (l : list A) :
  NoDup (f <$> l) → NoDup (f <$> List.filter p l).
Proof.
  induction l as [|x l IH]; simpl; [done|].
  intros [Hx Hl]%NoDup_cons. destruct (p x); simpl; [|by apply IH].
  apply NoDup_cons. split; [|by apply IH].
  intros (y & Hy & Hin)%list_elem_of_fmap. apply Hx.
  apply list_elem_of_fmap. exists y. split; [done|].
  apply list_elem_of_In in Hin. apply filter_In in Hin as [Hin _].
  by apply list_elem_of_In.
Qed.

Lemma select_tasks_NoDup show sort m : NoDup ((select_tasks show sort m).*1).
Proof.
  unfold select_tasks.
  destruct (String.eqb sort "due"); rewrite merge_sort_Permutation;
    apply NoDup_fmap_filter, NoDup_fst_map_to_list.
Qed.

(** X19.  Whatever the sort order, the task list shows each stored row
    that passes the filter exactly once, with its badge, and nothing
    else: [show=all] passes the rows with [deleted] 0, [show=completed]
    those with [deleted] 0 and [done] 1, [show=deleted] those with
    [deleted] 1. *)
Theorem index_lists_filtered_rows_once show sort today db :
  let l := page_tasks (index show sort today db).2 in
  NoDup (row_id <$> l)
  ∧ (∀ x, x ∈ l → tasks db !! row_id x = Some (row x)
                  ∧ row_badge x = badge_of today (row x))
  ∧ (∀ tid t, tasks db !! tid = Some t →
       (show = Some "all" →
          Shown tid t (badge_of today t) ∈ l ↔ deleted t = 0)
       ∧ (show = Some "completed" →
            Shown tid t (badge_of today t) ∈ l
            ↔ deleted t = 0 ∧ done t = 1)
       ∧ (show = Some "deleted" →
            Shown tid t (badge_of today t) ∈ l ↔ deleted t = 1)).
Proof.
  intros l. subst l. split; [|split].
  - rewrite page_tasks_index, <- list_fmap_compose.
    apply select_tasks_NoDup.
  - intros x (Hrow & _ & Hb)%page_tasks_elem. done.
  - intros tid t Ht.
    split; [|split]; intros ->; rewrite page_tasks_elem; simpl;
      unfold where_clause; simpl;
      rewrite ?andb_true_iff, ?Z.eqb_eq; tauto.
Qed.

(** ** Login *)

(** X20.  [POST /login] trims the submitted password and compares it with
    the configured one: the session is authenticated afterwards exactly
    when they are equal or it was authenticated before, so a wrong
    password does not log an authenticated session out; the answer is the
    redirect to the task list exactly when they are equal. *)
Theorem login_post_outcome password form_password s :
  let pw := Py.strip (Py.or_empty form_password) in
  (authed (login_post password form_password s).1 = true
   ↔ pw = password ∨ authed s = true)
  ∧ ((login_post password form_password s).2 = LoginOk ↔ pw = password)
  ∧ (pw ≠ password → (login_post password form_password s).1 = s).
Proof.
  intros pw. unfold login_post. fold pw.
  destruct (String.eqb_spec pw password) as [Heq|Hne]; simpl.
  - split; [tauto|]. split; [tauto|done].
  - split; [tauto|]. split; [|done]. split; [done|tauto].
Qed.

Lemma app_step_logged_out password int_of_str a ts db :
  (∀ fp, a = PostLogin fp → Py.strip (Py.or_empty fp) ≠ password) →
  app_step password int_of_str a ts (Session false, db) = (Session false, db).
Proof.
  intros Hpw. destruct a as [fp| |r]; simpl.
  - unfold login_post.
    destruct (String.eqb_spec (Py.strip (Py.or_empty fp)) password) as [Heq|];
      [|done].
    by destruct (Hpw fp).
  - done.
  - done.
Qed.

(** X21.  While nobody is logged in, requests other than a login with the
    right password change nothing: every write route answers with the
    redirect to the login page, and after any number of such requests the
    database is what it was and the session is still not authenticated. *)
Theorem logged_out_changes_nothing password int_of_str rs s db :
  authed s = false →
  Forall (λ ats, ∀ fp, ats.1 = PostLogin fp →
                       Py.strip (Py.or_empty fp) ≠ password) rs →
  app_run password int_of_str rs (s, db) = (Session false, db)
  ∧ ∀ r ts, login_required (serve int_of_str r ts) s db = (db, ToLogin).
Proof.
  intros Hs Hrs. destruct s as [b]. simpl in Hs. subst b. split.
  - induction Hrs as [|[a ts] rs Ha Hrs IH]; simpl; [done|].
    by rewrite app_step_logged_out.
  - intros r ts. done.
Qed.

Lemma logged_out_changes_nothing_witness :
  app_run "1234" no_int_of_str
    [(PostLogin (Some "12345"), "2025-06-02T08:00:00Z");
     (Protected (PostDelete 1), "2025-06-02T08:01:00Z");
     (Protected PostUndo, "2025-06-02T08:02:00Z")]
    (Session false, db_created)
  = (Session false, db_created).
Proof.
  apply (logged_out_changes_nothing "1234" no_int_of_str); [done|].
  repeat constructor; simpl; intros fp [=]. by subst fp.
Defined.

(** X22.  After a login with the right password a write request goes
    through to its handler: the database and the answer are the
    handler's.  After a logout it no longer does. *)
Theorem login_then_request password int_of_str form_password r ts s db :
  Py.strip (Py.or_empty form_password) = password →
  let s1 := (login_post password form_password s).1 in
  login_required (serve int_of_str r ts) s1 db
  = ((serve int_of_str r ts db).1, Passed (serve int_of_str r ts db).2)
  ∧ login_required (serve int_of_str r ts) (logout s1) db = (db, ToLogin).
Proof.
  intros Hpw%String.eqb_eq s1. subst s1. unfold login_post.
  by rewrite Hpw.
Qed.

Lemma login_then_request_witness :
  (login_required (serve no_int_of_str (PostToggle 1) "2025-06-02T08:00:00Z")
     (login_post (app_password None) (Some " 1234 ") (Session false)).1
     db_created).2
  = Passed (Redirect None (Index None)).
Proof.
  destruct (login_then_request (app_password None) no_int_of_str
              (Some " 1234 ") (PostToggle 1) "2025-06-02T08:00:00Z"
              (Session false) db_created) as [-> _]; [by vm_compute|].
  by vm_compute.
Defined.

(** X23.  The submitted password counts up to surrounding whitespace, and
    the configured one does not: submitting a password or its trimmed
    form gives the same outcome, and when the configured password itself
    has whitespace at either end no submitted password is accepted. *)
Theorem login_password_trimming password pw s :
  login_post password (Some (Py.strip pw)) s = login_post password (Some pw) s
  ∧ (Py.strip password ≠ password →
       ∀ form_password,
         login_post password form_password s = (s, WrongPassword)).
Proof.
  split.
  - unfold login_post. simpl. by rewrite strip_strip.
  - intros Hne fp. unfold login_post.
    destruct (String.eqb_spec (Py.strip (Py.or_empty fp)) password)
      as [Heq|]; [|done].
    destruct Hne. rewrite <- Heq. apply strip_strip.
Qed.

(** ** Undo of create, edit and restore *)

(** X24.  When the most recent event names a task that has a row: undo of
    a create removes that row; undo of a restore sets [deleted] back to 1;
    undo of an edit whose payload stores a text [before_title] puts that
    title back, and with it the stored [before_due] ([NULL] when it is
    absent or null).  The last two stamp [updated_at] and keep the other
    columns; all three leave the other rows alone, remove the event from
    the log and report success. *)
Theorem undo_create_edit_restore int_of_str ts db eid ev tid t :
  last_event (events db) = Some (eid, ev) →
  task_id ev = Some tid →
  tasks db !! tid = Some t →
  let db' := (undo_last int_of_str ts db).1 in
  (action ev = "create" → tasks db' !! tid = None)
  ∧ (action ev = "restore" →
       ∃ t', tasks db' !! tid = Some t'
             ∧ deleted t' = 1 ∧ updated_at t' = ts
             ∧ title t' = title t ∧ due_date t' = due_date t
             ∧ done t' = done t ∧ created_at t' = created_at t)
  ∧ (∀ ti, action ev = "edit" →
       payload ev !! "before_title" = Some (JStr ti) →
       bindable (payload ev !! "before_due") = true →
       ∃ t', tasks db' !! tid = Some t'
             ∧ title t' = ti ∧ updated_at t' = ts
             ∧ (∀ d, payload ev !! "before_due" = Some (JStr d) →
                     due_date t' = Some d)
             ∧ (payload ev !! "before_due" = None
                ∨ payload ev !! "before_due" = Some JNull →
                  due_date t' = None)
             ∧ done t' = done t ∧ deleted t' = deleted t
             ∧ created_at t' = created_at t)
  ∧ (action ev = "create" ∨ action ev = "restore"
     ∨ (action ev = "edit"
        ∧ (∃ ti, payload ev !! "before_title" = Some (JStr ti))
        ∧ bindable (payload ev !! "before_due") = true) →
       (∀ j, j ≠ tid → tasks db' !! j = tasks db !! j)
       ∧ events db' = delete eid (events db)
       ∧ (undo_last int_of_str ts db).2
         = Redirect (Some (UndidLast, flash_success)) (Index None)).
Proof.
  intros Hlast Htid Ht db'. subst db'. split; [|split; [|split]].
  - intros Ha.
    erewrite undo_last_applied; [|done|by apply undo_inverse_create].
    rewrite Htid. apply lookup_delete_eq.
  - intros Ha.
    erewrite undo_last_applied; [|done|by apply undo_inverse_restore].
    rewrite Htid. erewrite update_where_id_found by done.
    eexists. cbn [fst tasks]. rewrite lookup_insert_eq.
    split; [done|]. by repeat split.
  - intros ti Ha Hti Hdue.
    erewrite undo_last_applied; [|done|by apply undo_inverse_edit].
    rewrite Htid. erewrite update_where_id_found by done.
    eexists. cbn [fst tasks]. rewrite lookup_insert_eq.
    split; [done|]. cbn [title due_date done deleted created_at updated_at
                         set_title_due].
    split; [done|]. split; [done|].
    split; [by intros d ->|]. split; [by intros [-> | ->]|done].
  - intros Hcase.
    assert (∃ m, undo_inverse int_of_str ev ts (tasks db) = Applied m
                 ∧ ∀ j, j ≠ tid → m !! j = tasks db !! j) as (m & Hm & Hj).
    { destruct Hcase as [Ha|[Ha|(Ha & [ti Hti] & Hdue)]].
      - rewrite undo_inverse_create by done. eexists. split; [done|].
        intros j Hj. rewrite Htid. by apply lookup_delete_ne.
      - rewrite undo_inverse_restore by done. eexists. split; [done|].
        intros j Hj. rewrite Htid. cbn [update_where_id].
        rewrite lookup_alter. by case_decide.
      - erewrite undo_inverse_edit by done. eexists. split; [done|].
        intros j Hj. rewrite Htid. cbn [update_where_id].
        rewrite lookup_alter. by case_decide. }
    erewrite undo_last_applied by done. cbn [fst snd tasks events].
    by split.
Qed.

Lemma undo_create_edit_restore_witness :
  tasks (undo_last no_int_of_str "2025-06-02T08:00:00Z" db_created).1 !! 1
  = None
  ∧ deleted <$> tasks (undo_last no_int_of_str "2025-06-02T08:00:00Z"
                         db_restored).1 !! 1 = Some 1
  ∧ (λ t, (title t, due_date t))
      <$> tasks (undo_last no_int_of_str "2025-06-02T08:00:00Z"
                   db_edited).1 !! 1
    = Some ("buy milk", Some "2025-06-14").
Proof.
  split; [|split].
  - apply (undo_create_edit_restore no_int_of_str "2025-06-02T08:00:00Z"
             db_created 1
             (Event "create" (Some 1)
                (<["title" := JStr "buy milk"]>
                   (<["due_date" := JStr "2025-06-14"]> ∅))
                "2025-06-01T08:00:00Z")
             1 (Task "buy milk" (Some "2025-06-14") 0 0
                  "2025-06-01T08:00:00Z" "2025-06-01T08:00:00Z"));
      by vm_compute.
  - destruct (undo_create_edit_restore no_int_of_str "2025-06-02T08:00:00Z"
                db_restored 3
                (Event "restore" (Some 1)
                   (<["title" := JStr "buy milk"]>
                      (<["due_date" := JStr "2025-06-14"]> ∅))
                   "2025-06-01T11:00:00Z")
                1 (Task "buy milk" (Some "2025-06-14") 0 0
                     "2025-06-01T08:00:00Z" "2025-06-01T11:00:00Z"))
      as (_ & Hrestore & _); [by vm_compute|done|by vm_compute|].
    destruct Hrestore as (t' & -> & Hd & _); [done|].
    simpl. by rewrite Hd.
  - destruct (undo_create_edit_restore no_int_of_str "2025-06-02T08:00:00Z"
                db_edited 2
                (Event "edit" (Some 1)
                   (<["before_title" := JStr "buy milk"]>
                      (<["after_title" := JStr "buy oat milk"]>
                         (<["before_due" := JStr "2025-06-14"]>
                            (<["after_due" := JNull]> ∅))))
                   "2025-06-01T11:00:00Z")
                1 (Task "buy oat milk" None 0 0
                     "2025-06-01T08:00:00Z" "2025-06-01T11:00:00Z"))
      as (_ & _ & Hedit & _); [by vm_compute|done|by vm_compute|].
    destruct (Hedit "buy milk") as (t' & -> & Hti & _ & Hdu & _);
      [done|by vm_compute|by vm_compute|].
    simpl. rewrite Hti, (Hdu "2025-06-14"); [done|by vm_compute].
Defined.

(** ** Undoing everything *)

Lemma undo_all_consistent int_of_str tss db :
  consistent db → length tss = size (events db) →
  let db' := run int_of_str ((λ ts, (PostUndo, ts)) <$> tss) db in
  tasks db' = ∅ ∧ events db' = ∅.
Proof.
  revert db. induction tss as [|ts tss IH]; intros db Hdb Hlen; simpl in *.
  - symmetry in Hlen. apply map_size_empty_iff in Hlen.
    split; [|done]. apply map_empty. intros tid.
    destruct (tasks db !! tid) as [t|] eqn:Ht; [|done].
    destruct (tasks_created db Hdb tid) as (c & ce & Hc & _);
      [by rewrite Ht|].
    by rewrite Hlen, lookup_empty in Hc.
  - destruct (last_event (events db)) as [[k ev]|] eqn:Hlast.
    2:{ apply last_event_None in Hlast. rewrite Hlast, map_size_empty in Hlen.
        done. }
    pose proof (last_event_spec (events db)) as Hspec.
    rewrite Hlast in Hspec. destruct Hspec as [Hk _].
    assert (events (undo_last int_of_str ts db).1 = delete k (events db))
      as Hev.
    { destruct (undo_last_consistent_shape int_of_str ts _ k ev Hdb Hlast)
        as (tid & t & _ & _ & [[_ ->]|(_ & t' & _ & ->)]); done. }
    apply IH.
    + by apply (serve_consistent int_of_str PostUndo).
    + rewrite Hev, map_size_delete, Hk. lia.
Qed.

(** X25.  From a consistent state, as many undos as there are events in
    the log go all the way back: the event log and the task table are
    both empty afterwards. *)
Theorem undo_everything int_of_str tss db :
  consistent db → length tss = size (events db) →
  tasks (run int_of_str ((λ ts, (PostUndo, ts)) <$> tss) db) = ∅
  ∧ events (run int_of_str ((λ ts, (PostUndo, ts)) <$> tss) db) = ∅.
Proof. apply undo_all_consistent. Qed.

Lemma undo_everything_witness :
  let db' := run no_int_of_str
               [(PostUndo, "2025-06-03T08:00:00Z");
                (PostUndo, "2025-06-03T09:00:00Z")] db_two_undated in
  tasks db' = ∅ ∧ events db' = ∅.
Proof.
  apply (undo_everything no_int_of_str
           ["2025-06-03T08:00:00Z"; "2025-06-03T09:00:00Z"] db_two_undated).
  - apply run_preserves_consistent, consistent_empty.
  - by vm_compute.
Defined.
